(** * PRESTO dataset builders: prompt templating and batch generation

    A shallow embedding of the three dataset-building scripts
    - [scripts/build_dataset/name_conversion/molecule_build_name_conversion_i2s_smol.py]
    - [scripts/name_conversion/molecule_build_name_conversion_s2f_smol.py]
    - [scripts/llava_gpt_build_multi_image_finetune_dataset.py]
    together with the properties their specification states about them.

    Python strings are [string]; rows and JSON objects are [gmap string string];
    exceptions are an error monad; the global [random] module is an explicit
    random tape threaded through the code that draws from it. *)

From Stdlib Require Import Ascii.
From stdpp Require Import base strings list sorting gmap pretty.

(** ** The Python runtime the scripts rely on *)

Module Py.

(** Exceptions.  Every constructor is a subclass of [Exception], so a bare
    [except Exception] catches all of them. *)
Inductive exn :=
| KeyError (key : string)
| IndexError
| ValueError (msg : string)
| UnboundLocalError (var : string)
| LibraryError (what : string).

Inductive result (A : Type) :=
| Ok (a : A)
| Raise (e : exn).
Global Arguments Ok {A} a.
Global Arguments Raise {A} e.

Global Instance result_ret : MRet result := λ A a, Ok a.
Global Instance result_bind : MBind result := λ A B f m,
  match m with Ok a => f a | Raise e => Raise e end.

Definition is_ok {A} (r : result A) : bool :=
  match r with Ok _ => true | Raise _ => false end.

(** The state of the module-level generator of [random]: an infinite tape of
    naturals, read from position 0. *)
Definition rng := nat → nat.

(** Code that may draw random numbers and may raise. A raised exception
    keeps the generator state reached so far. *)
Definition M (A : Type) : Type := rng → result A * rng.

Global Instance M_ret : MRet M := λ A a g, (Ok a, g).
Global Instance M_bind : MBind M := λ A B f m g,
  match m g with
  | (Ok a, g') => f a g'
  | (Raise e, g') => (Raise e, g')
  end.

Definition lift {A} (r : result A) : M A := λ g, (r, g).

(** [try: m / except Exception: ...] where the handler does not raise:
    [None] stands for the handled exception. *)
Definition try_except {A} (m : M A) : M (option A) := λ g,
  match m g with
  | (Ok a, g') => (Ok (Some a), g')
  | (Raise _, g') => (Ok None, g')
  end.

(** [random._randbelow(n)] for [0 < n]. *)
Definition randbelow (n : nat) : M nat :=
  λ g, (Ok (g 0 `mod` n), λ i, g (S i)).

(** [random.choice(seq)]: [IndexError] on an empty sequence. *)
Definition random_choice {A} (seq : list A) : M A :=
  match seq with
  | [] => lift (Raise IndexError)
  | _ :: _ =>
      k ← randbelow (length seq);
      lift (from_option Ok (Raise IndexError) (seq !! k))
  end.

(** [random.random()]: only the order of the drawn keys is observed, so a
    key is the natural read from the tape. *)
Definition random_random : M nat :=
  λ g, (Ok (g 0), λ i, g (S i)).

(** [sorted(rows, key=lambda x: random.random())]: one key per element, drawn
    in order, then a stable sort on the keys: every element is put, from the
    last to the first, before the elements after it whose key is not
    smaller, so that elements of equal key keep their order. *)
Fixpoint draw_keys {A} (l : list A) : M (list (nat * A)) :=
  match l with
  | [] => mret []
  | x :: l' =>
      k ← random_random;
      rest ← draw_keys l';
      mret ((k, x) :: rest)
  end.

Fixpoint insert_by_key {A} (p : nat * A) (l : list (nat * A)) : list (nat * A) :=
  match l with
  | [] => [p]
  | q :: l' => if decide (q.1 < p.1) then q :: insert_by_key p l' else p :: q :: l'
  end.

Definition sorted_by_random_key {A} (l : list A) : M (list A) :=
  keyed ← draw_keys l;
  mret ((foldr insert_by_key [] keyed).*2).

(** [random.sample(population, k)]: [ValueError] when [k] exceeds the
    population, before anything is drawn; else [k] draws without
    replacement, by the pool algorithm.  (CPython takes the pool algorithm
    for a population of at most 21 elements, a few more when [k > 5]; above
    that it draws indices and redraws the ones already taken, which gives a
    sample of the same kind, at positions and with a number of draws that the
    pool algorithm does not give.) *)
Fixpoint sample_pool {A} (pool : list A) (k : nat) : M (list A) :=
  match k with
  | 0 => mret []
  | S k' =>
      j ← randbelow (length pool);
      match pool !! j, last pool with
      | Some x, Some y =>
          rest ← sample_pool (take (length pool - 1) (<[j:=y]> pool)) k';
          mret (x :: rest)
      | _, _ => lift (Raise IndexError)
      end
  end.

Definition random_sample {A} (population : list A) (k : nat) : M (list A) :=
  if decide (k ≤ length population)
  then sample_pool population k
  else lift (Raise (ValueError "Sample larger than population or is negative")).

(** [d[key]] on a dict. *)
Definition getitem (d : gmap string string) (key : string) : result string :=
  from_option Ok (Raise (KeyError key)) (d !! key).

(** [l[i]] on a list. *)
Definition list_getitem {A} (l : list A) (i : nat) : result A :=
  from_option Ok (Raise IndexError) (l !! i).

(** [s.startswith(p)]. *)
Fixpoint startswith (s p : string) {struct p} : bool :=
  match p, s with
  | EmptyString, _ => true
  | String a p', String b s' => if decide (a = b) then startswith s' p' else false
  | String _ _, EmptyString => false
  end.

(** [p in s]. *)
Fixpoint str_in (p s : string) : bool :=
  startswith s p ||
  match s with
  | EmptyString => false
  | String _ s' => str_in p s'
  end.

(** [s.replace(old, new)]: every occurrence of [old], found left to right
    without overlap, becomes [new].  [skip] counts the characters of the
    occurrence just replaced that are still to be passed over. *)
Fixpoint replace_from (old new : string) (skip : nat) (s : string) : string :=
  match s with
  | EmptyString => EmptyString
  | String c s' =>
      match skip with
      | S k => replace_from old new k s'
      | O =>
          if startswith s old
          then new +:+ replace_from old new (String.length old - 1) s'
          else String c (replace_from old new 0 s')
      end
  end.

(** With an empty [old], Python puts [new] before every character and at
    the end. *)
Fixpoint intersperse (new s : string) : string :=
  match s with
  | EmptyString => new
  | String c s' => new +:+ String c (intersperse new s')
  end.

Definition str_replace (s old new : string) : string :=
  match old with
  | EmptyString => intersperse new s
  | String _ _ => replace_from old new 0 s
  end.

(** [s.count(sub)] for a non-empty [sub]: occurrences without overlap. *)
Fixpoint count_from (sub : string) (skip : nat) (s : string) : nat :=
  match s with
  | EmptyString => 0
  | String c s' =>
      match skip with
      | S k => count_from sub k s'
      | O =>
          if startswith s sub
          then S (count_from sub (String.length sub - 1) s')
          else count_from sub 0 s'
      end
  end.

Definition str_count (s sub : string) : nat :=
  match sub with
  | EmptyString => S (String.length s)
  | String _ _ => count_from sub 0 s
  end.

(** [s * n]. *)
Fixpoint str_mul (s : string) (n : nat) : string :=
  match n with
  | 0 => EmptyString
  | S n' => s +:+ str_mul s n'
  end.

(** [sep.join(parts)]. *)
Fixpoint str_join (sep : string) (parts : list string) : string :=
  match parts with
  | [] => EmptyString
  | [x] => x
  | x :: rest => x +:+ sep +:+ str_join sep rest
  end.

(** [s.strip()], on the ASCII range: whitespace is 9-13 and 28-32. *)
Definition isspace (c : ascii) : bool :=
  let n := nat_of_ascii c in
  bool_decide (9 ≤ n ≤ 13) || bool_decide (28 ≤ n ≤ 32).

Fixpoint lstrip (s : string) : string :=
  match s with
  | EmptyString => EmptyString
  | String c s' => if isspace c then lstrip s' else s
  end.

Definition str_strip (s : string) : string :=
  String.rev (lstrip (String.rev (lstrip s))).

(** [str(n)] for a non-negative integer. *)
Definition str_of_nat (n : nat) : string := pretty n.

(** The line feed written [\n] in the sources. *)
Definition nl : string := String (ascii_of_nat 10) EmptyString.

(** [bool(s)] on a string: only the empty string is false. *)
Definition bool_of_str (s : string) : bool :=
  match s with
  | EmptyString => false
  | String _ _ => true
  end.

(** [enumerate(l)], counting from [start]. *)
Fixpoint enumerate_from {A} (start : nat) (l : list A) : list (nat * A) :=
  match l with
  | [] => []
  | x :: l' => (start, x) :: enumerate_from (S start) l'
  end.

(** A list comprehension whose element expression may raise: the first
    exception ends it. *)
Fixpoint traverse {A B} (f : A → result B) (l : list A) : result (list B) :=
  match l with
  | [] => Ok []
  | x :: l' =>
      y ← f x;
      ys ← traverse f l';
      mret (y :: ys)
  end.

End Py.
Import Py.


(** ** Data model shared by the two molecule pipelines *)

(** Modelled from the spec: [bioagent/constants.py] (and
    [multi_token/constants.py]) is not among the sources; it provides the role
    names [ROLE_SYSTEM], [ROLE_USER] and [ROLE_ASSISTANT] of the three turns
    "system instruction, user prompt, assistant answer". *)
Inductive Role := ROLE_SYSTEM | ROLE_USER | ROLE_ASSISTANT.

Global Instance Role_eq_dec : EqDecision Role.
Proof. solve_decision. Defined.

(** A value of the [molecules] dict: a string in the formula pipeline, the
    empty list [[]] in the name pipeline. *)
Inductive MolField :=
| MolText (s : string)
| MolEmptyList.

(** An entry of [PROMPT_TEMPLATES]: a dict with the keys ["input"] and
    ["output"]. *)
Module Template.
Record t := mk { input : string; output : string }.
End Template.

(** The dict returned by [conversation_train] and [conversation_test]. *)
Module Conv.
Record Message := mkMessage { role : Role; content : string }.
Record Molecules := mkMolecules { selfies : MolField; smiles : MolField }.
Record t := mk {
  id : nat;
  molecules : Molecules;
  ground_truth : string;
  messages : list Message
}.
End Conv.

(** A row of an input split, as [Dataset.from_json] hands it to the loop: a
    dict from field names to strings.  A field the row lacks is a key that is
    not in the dict.  (Rows in which [Dataset.from_json] has put [None] for a
    field are outside this type: on them the scripts fail later, in
    [str.replace], or not at all where the field is only copied.) *)
Abbreviation row := (gmap string string).

(** The conversion argparse applies to the value of [--token]
    ([type=bool, default=True]): [bool] of the string that was supplied, the
    default when the option is absent. *)
Definition parse_token (supplied : option string) : bool :=
  match supplied with
  | None => true
  | Some s => bool_of_str s
  end.

(** The line [f"Few-shot example {i+1}: {example['input']} -> {example['output']}"]. *)
Definition few_shot_line (p : nat * row) : result string :=
  let '(i, example) := p in
  inp ← getitem example "input";
  out ← getitem example "output";
  mret ("Few-shot example " +:+ str_of_nat (i + 1) +:+ ": " +:+ inp +:+ " -> " +:+ out).

(** [not few_shots]: [None] and the empty list are both falsy. *)
Definition falsy_list {A} (l : option (list A)) : bool :=
  match l with
  | None | Some [] => true
  | Some (_ :: _) => false
  end.

(** [not num_examples]: [None] and [0] are both falsy. *)
Definition falsy_int (n : option nat) : bool :=
  match n with
  | None | Some 0 => true
  | Some (S _) => false
  end.

(** [generate_few_shot_examples(rows, num_examples=5)], the same in both
    scripts. *)
Definition generate_few_shot_examples (rows : list row) (num_examples : option nat)
    : M (option (list row)) :=
  if falsy_int num_examples then mret None
  else
    shuffled ← sorted_by_random_key rows;
    picked ← random_sample shuffled (default 0 num_examples);
    mret (Some picked).

(** The loop of [gen] over [enumerate(dataset[split])] with its
    [try: ... yield result / except Exception: pass]: a body that raises
    yields nothing and the loop goes on. *)
Fixpoint gen_loop (body : nat → row → M Conv.t) (id : nat) (items : list row)
    : M (list Conv.t) :=
  match items with
  | [] => mret []
  | item :: rest =>
      r ← try_except (body id item);
      out ← gen_loop body (S id) rest;
      mret (option_list r ++ out)
  end.

(** ** SMILES-to-formula pipeline
    ([scripts/name_conversion/molecule_build_name_conversion_s2f_smol.py]) *)

Module S2F.

Definition MOLECULE_TOKEN : string := "<molecule_2d>".

Definition SYSTEM_PROMPT : string :=
  "You are a chemist. Please follow the instructions to convert the structure to the corresponding name.".

Definition FEW_SHOT_PROMPT : string := "Here are some examples of name conversion.".

Definition PROMPT_TEMPLATES : list Template.t :=
  [
    Template.mk
      "<INPUT> is the representation of a molecule. What is its molecular formula?"
      "<OUTPUT>";
    Template.mk
      "Convert the representation of a molecule <INPUT> into molecular formula."
      "<OUTPUT>";
    Template.mk
      "What is the formula of the molecule <INPUT> ?"
      "<OUTPUT>";
    Template.mk
      "Can you give the molecular molecular formula of <INPUT> ?"
      "Sure. <OUTPUT>";
    Template.mk
      "Please write the molecular formula of the molecule <INPUT> ."
      "<OUTPUT>";
    Template.mk
      "Given the representation <INPUT>, what would be its molecular formula?"
      "It is <OUTPUT> .";
    Template.mk
      "The representation <INPUT> represents a specific molecule. Can you reveal its molecular formula?"
      "Sure. It's <OUTPUT> .";
    Template.mk
      "Considering the code <INPUT>, can you determine the corresponding molecular formula?"
      "It would be <OUTPUT> .";
    Template.mk
      "Can you tell me the molecular formula of <INPUT> ?"
      "<OUTPUT>";
    Template.mk
      "I'd like to know the molecular formula of <INPUT> . Can you tell me?"
      "Sure. It's <OUTPUT> .";
    Template.mk
      "What is the molecular formula for the molecule denoted by <INPUT> ?"
      "<OUTPUT>";
    Template.mk
      "What is the molecular formula of <INPUT> ?"
      "The molecular formula is <OUTPUT> .";
    Template.mk
      "Please provide the molecular formula for <INPUT> ."
      "<OUTPUT>"
  ].

Section Pipeline.

(** [bioagent.chemistry_tools.smiles.convert_to_canonical_smiles] and
    [selfies.encoder] are not among the sources: both are taken as given,
    each returning a string or raising. *)
Variable convert_to_canonical_smiles : string → result string.
Variable sf_encoder : string → result string.

Definition process_input (input format : string) (token : bool)
    : result (string * string * string) :=
  smiles ← convert_to_canonical_smiles input;
  selfies ← sf_encoder smiles;
  molecule ←
    (if token then Ok MOLECULE_TOKEN
     else if String.eqb format "smiles" then Ok smiles
     else if String.eqb format "selfies" then Ok selfies
     else Raise (ValueError ("Unsupported molecule format: " +:+ format)));
  mret (selfies, smiles, molecule).

Definition conversation_train (id : nat) (input output format : string)
    (token : bool) : M Conv.t :=
  '(selfies, smiles, molecule) ← lift (process_input input format token);
  prompt_template ← random_choice PROMPT_TEMPLATES;
  let input_template := str_replace (Template.input prompt_template) "<INPUT>" molecule in
  let output_template := str_replace (Template.output prompt_template) "<OUTPUT>" output in
  mret (Conv.mk id
          (Conv.mkMolecules (MolText selfies) (MolText smiles))
          output
          [ Conv.mkMessage ROLE_SYSTEM SYSTEM_PROMPT;
            Conv.mkMessage ROLE_USER input_template;
            Conv.mkMessage ROLE_ASSISTANT output_template ]).

Definition conversation_test (id : nat) (input output : string)
    (few_shots : option (list row)) (format : string) (token : bool)
    : M Conv.t :=
  '(selfies, smiles, molecule) ← lift (process_input input format token);
  prompt_template ← random_choice PROMPT_TEMPLATES;
  let input_template := str_replace (Template.input prompt_template) "<INPUT>" molecule in
  content ←
    (if falsy_list few_shots then mret input_template
     else
       lines ← lift (traverse few_shot_line (enumerate_from 0 (default [] few_shots)));
       let few_shot_examples := str_join nl lines in
       mret (FEW_SHOT_PROMPT +:+ nl +:+ few_shot_examples +:+ nl +:+ input_template));
  mret (Conv.mk id
          (Conv.mkMolecules (MolText selfies) (MolText smiles))
          output
          [ Conv.mkMessage ROLE_SYSTEM SYSTEM_PROMPT;
            Conv.mkMessage ROLE_USER content ]).

(** The command-line arguments [gen] closes over. *)
Variable args_format : string.
Variable args_token : bool.

(** The body of the [try] in [gen], for the row [item] numbered [id];
    [pool] is [dataset[split]]. With a [split] other than the three names,
    [result] is unbound at the [yield]. *)
Definition gen_body (pool : list row) (split : string) (id : nat) (item : row)
    : M Conv.t :=
  if String.eqb split "train" then
    input ← lift (getitem item "input");
    output ← lift (getitem item "output");
    conversation_train id input output args_format args_token
  else if String.eqb split "dev" then
    input ← lift (getitem item "input");
    output ← lift (getitem item "output");
    conversation_train id input output args_format args_token
  else if String.eqb split "test" then
    input ← lift (getitem item "input");
    output ← lift (getitem item "output");
    few_shots ← generate_few_shot_examples pool (Some 0);
    conversation_test id input output few_shots args_format args_token
  else lift (Raise (UnboundLocalError "result")).

(** The loop of [gen(split)] over [rows], the value of [dataset[split]];
    the lookup itself, made in the [for] header and outside the [try], is
    [dataset_getitem] below. *)
Definition gen (rows : list row) (split : string) : M (list Conv.t) :=
  gen_loop (gen_body rows split) 0 rows.

End Pipeline.

(** [parser.add_argument("--token", type=bool, default=True)]. *)
Definition args_token_of_cli (supplied : option string) : bool := parse_token supplied.

End S2F.

(** ** Name-to-SMILES pipeline
    ([scripts/build_dataset/name_conversion/molecule_build_name_conversion_i2s_smol.py]) *)

Module I2S.

Definition MOLECULE_TOKEN : string := "<molecule_2d>".

Definition SYSTEM_PROMPT : string :=
  "You are a chemist. Please follow the instructions to convert the structure to the corresponding name.".

Definition FEW_SHOT_PROMPT : string := "Here are some examples of name conversion.".

Definition PROMPT_TEMPLATES : list Template.t :=
  [
    Template.mk
      "<INPUT> is the IUPAC name of a molecule. Please give its SMILES representation."
      "<OUTPUT>";
    Template.mk
      "Convert the IUPAC name of a molecule <INPUT> into SMILES representation."
      "<OUTPUT>";
    Template.mk
      "What is the SMILES representation of the molecule with IUPAC name <INPUT> ?"
      "<OUTPUT>";
    Template.mk
      "Can you give the SMILES notation of the molecule <INPUT> ?"
      "Sure. <OUTPUT>";
    Template.mk
      "Please write the SMILES representation of the molecule <INPUT> ."
      "<OUTPUT>";
    Template.mk
      "<INPUT> The above is the IUPAC name of a molecule. Write its SMILES notation."
      "<OUTPUT>";
    Template.mk
      "The IUPAC name of a certain molecule is <INPUT> . Can you provide its SMILES representation?"
      "The SMILES representation is <OUTPUT> .";
    Template.mk
      "Please identify the SMILES representation of the molecule named <INPUT> ."
      "The molecule's SMILES representation is <OUTPUT> .";
    Template.mk
      "For the molecule with <INPUT> as the IUPAC name, what is the corresponding SMILES representation?"
      "The corresponding SMILES representation is <OUTPUT> .";
    Template.mk
      "What is the SMILES notation for <INPUT> ?"
      "It's <OUTPUT> .";
    Template.mk
      "Could you provide the SMILES for <INPUT> ?"
      "Of course. It's <OUTPUT> .";
    Template.mk
      "Can you tell me the SMILES representation for the molecule <INPUT> ?"
      "Sure. <OUTPUT> .";
    Template.mk
      "What is the SMILES representation for <INPUT> ?"
      "<OUTPUT>"
  ].

Section Pipeline.

(** [bioagent.chemistry_tools.smiles.convert_to_canonical_smiles] and
    [selfies.encoder] are not among the sources: both are taken as given,
    each returning a string or raising. *)
Variable convert_to_canonical_smiles : string → result string.
Variable sf_encoder : string → result string.

Definition process_input (input format : string) (token : bool)
    : result (string * string * string) :=
  smiles ← convert_to_canonical_smiles input;
  selfies ← sf_encoder smiles;
  molecule ←
    (if token then Ok MOLECULE_TOKEN
     else if String.eqb format "smiles" then Ok smiles
     else if String.eqb format "selfies" then Ok selfies
     else Raise (ValueError ("Unsupported molecule format: " +:+ format)));
  mret (selfies, smiles, molecule).

(** [format] and [token] are accepted and not used; [process_input] is
    not called. *)
Definition conversation_train (id : nat) (input output format : string)
    (token : bool) : M Conv.t :=
  prompt_template ← random_choice PROMPT_TEMPLATES;
  let input_template := str_replace (Template.input prompt_template) "<INPUT>" input in
  let output_template := str_replace (Template.output prompt_template) "<OUTPUT>" output in
  mret (Conv.mk id
          (Conv.mkMolecules MolEmptyList MolEmptyList)
          output
          [ Conv.mkMessage ROLE_SYSTEM SYSTEM_PROMPT;
            Conv.mkMessage ROLE_USER input_template;
            Conv.mkMessage ROLE_ASSISTANT output_template ]).

Definition conversation_test (id : nat) (input output : string)
    (few_shots : option (list row)) (format : string) (token : bool)
    : M Conv.t :=
  prompt_template ← random_choice PROMPT_TEMPLATES;
  let input_template := str_replace (Template.input prompt_template) "<INPUT>" input in
  content ←
    (if falsy_list few_shots then mret input_template
     else
       lines ← lift (traverse few_shot_line (enumerate_from 0 (default [] few_shots)));
       let few_shot_examples := str_join nl lines in
       mret (FEW_SHOT_PROMPT +:+ nl +:+ few_shot_examples +:+ nl +:+ input_template));
  mret (Conv.mk id
          (Conv.mkMolecules MolEmptyList MolEmptyList)
          output
          [ Conv.mkMessage ROLE_SYSTEM SYSTEM_PROMPT;
            Conv.mkMessage ROLE_USER content ]).

(** The command-line arguments [gen] closes over. *)
Variable args_format : string.
Variable args_token : bool.

(** The body of the [try] in [gen], for the row [item] numbered [id];
    [pool] is [dataset[split]]. With a [split] other than the three names,
    [result] is unbound at the [yield]. *)
Definition gen_body (pool : list row) (split : string) (id : nat) (item : row)
    : M Conv.t :=
  if String.eqb split "train" then
    input ← lift (getitem item "input");
    output ← lift (getitem item "output");
    conversation_train id input output args_format args_token
  else if String.eqb split "dev" then
    input ← lift (getitem item "input");
    output ← lift (getitem item "output");
    conversation_train id input output args_format args_token
  else if String.eqb split "test" then
    input ← lift (getitem item "input");
    output ← lift (getitem item "output");
    few_shots ← generate_few_shot_examples pool (Some 0);
    conversation_test id input output few_shots args_format args_token
  else lift (Raise (UnboundLocalError "result")).

(** The loop of [gen(split)] over [rows], the value of [dataset[split]];
    the lookup itself, made in the [for] header and outside the [try], is
    [dataset_getitem] below. *)
Definition gen (rows : list row) (split : string) : M (list Conv.t) :=
  gen_loop (gen_body rows split) 0 rows.

End Pipeline.

(** [parser.add_argument("--token", type=bool, default=True)]. *)
Definition args_token_of_cli (supplied : option string) : bool := parse_token supplied.

End I2S.

(** ** Multi-image conversation builder
    ([scripts/llava_gpt_build_multi_image_finetune_dataset.py]) *)

Module Llava.

(** [PROMPT.format(captions=..., question=...)]. *)
Definition PROMPT_format (captions question : string) : string :=
  nl +:+ "You are helping train a chat vision assistant that can take several image inputs and output text."
     +:+ nl +:+ nl +:+ "Here are the images you can see:" +:+ nl
     +:+ captions +:+ nl +:+ nl +:+ question +:+ nl.

Definition QUESTIONS : list string :=
  [
    "Using the images and their captions above, ask a complex question about the relationship between the images.";
    "Ask a question that reasons about ALL of the images, for example, asking about how they are related or how one might lead to the other.";
    "Ask a question that reasons about ALL of the images, for example, asking about the relationship between objects in the images, asking about the location of objects in the images, etc.";
    "Ask a complex question that is relevant to the content some of images, for example, asking about background knowledge of the objects in the images, asking to discuss about events happening in the images, etc. Do not ask about uncertain details.";
    "Ask about the similarities among the provided images.";
    "Ask about the differences among the provided images.";
    "Ask about the last image.";
    "Ask about the first image.";
    "Ask about your thoughts on the images.";
    "Ask about how to use the items in the images.";
    "Ask a question that relates to the order of the images.";
    "Ask a question that relates to the numbering of the images."
  ].

Definition IMAGE_TOKEN : string := "<image>".

(** A row of the captioned-image dataset: its image paths and its messages,
    each message a dict. *)
Module Pretrain.
Record t := mk { images : list string; messages : list (gmap string string) }.
End Pretrain.

(** The dict returned by [_build_convo]. *)
Module Example.
Record t := mk { images : list string; messages : list Conv.Message }.
End Example.

(** [f"Image {i+1} - {cap}"]. *)
Definition caption_line (p : nat * string) : string :=
  "Image " +:+ str_of_nat (p.1 + 1) +:+ " - " +:+ p.2.

Section Service.

(** The chat-completion service is external: [openai_Client] stands for
    building the client, [create_chat prompt] for the completion call on
    the system prompt followed by [json.loads] of the arguments of the
    forced [create_chat] tool call.  Either may raise. *)
Variable openai_Client : result unit.
Variable create_chat : string → result (gmap string string).

Definition _build_convo (pretrain_examples : list Pretrain.t) : M Example.t :=
  _ ← lift openai_Client;
  captions ← lift (traverse
    (λ e, m ← list_getitem (Pretrain.messages e) 1; getitem m "content")
    pretrain_examples);
  paths ← lift (traverse (λ e, list_getitem (Pretrain.images e) 0) pretrain_examples);
  let captions_text := str_join nl (caption_line <$> enumerate_from 0 captions) in
  question ← random_choice QUESTIONS;
  let prompt := str_strip (PROMPT_format captions_text question) in
  resp ← lift (create_chat prompt);
  q ← lift (getitem resp "question");
  a ← lift (getitem resp "answer");
  front ← random_choice [true; false];
  let q :=
    if front : bool then str_mul IMAGE_TOKEN (length captions) +:+ " " +:+ q
    else q +:+ " " +:+ str_mul IMAGE_TOKEN (length captions) in
  mret (Example.mk paths
          [ Conv.mkMessage ROLE_USER q;
            Conv.mkMessage ROLE_ASSISTANT a ]).

(** One round of the loop of [gen] in [main]: the draw of [k] and of the
    [k] rows happens outside the [try], the synthesis inside it. *)
Definition gen_round (data : list Pretrain.t) (max_images : nat)
    : M (option Example.t) :=
  k ← (if decide (1 ≤ max_images)
       then j ← randbelow max_images; mret (1 + j)
       else lift (Raise (ValueError "empty range for randrange()")));
  selected_idxs ← random_sample (seq 0 (length data)) k;
  selected_examples ← lift (traverse (list_getitem data) selected_idxs);
  try_except (_build_convo selected_examples).

Fixpoint gen (data : list Pretrain.t) (max_images num_examples : nat)
    : M (list Example.t) :=
  match num_examples with
  | 0 => mret []
  | S n =>
      r ← gen_round data max_images;
      rest ← gen data max_images n;
      mret (option_list r ++ rest)
  end.

End Service.

End Llava.

(** ** Vocabulary of the statements *)

(** The contents of the turns of a given role. *)
Definition turns (r : Role) (msgs : list Conv.Message) : list string :=
  Conv.content <$> filter (λ m, Conv.role m = r) msgs.

(** Neither template placeholder occurs in [s]. *)
Definition placeholder_free (s : string) : bool :=
  negb (str_in "<INPUT>" s) && negb (str_in "<OUTPUT>" s).

(** [c in s] for a single character. *)
Fixpoint has_char (c : ascii) (s : string) : bool :=
  match s with
  | EmptyString => false
  | String b s' => if decide (c = b) then true else has_char c s'
  end.

(** Some non-empty suffix of [p] is a prefix of [post]: an occurrence of [p]
    could begin before [post] and end inside it. *)
Fixpoint overlaps_end (p post : string) : bool :=
  match p with
  | EmptyString => false
  | String _ p' => startswith post p || overlaps_end p' post
  end.

(** [s[n:]]. *)
Fixpoint str_drop (n : nat) (s : string) : string :=
  match n, s with
  | S n', String _ s' => str_drop n' s'
  | _, _ => s
  end.

(** [s.partition(old)[0]] and [s.partition(old)[2]]: what precedes and what
    follows the first occurrence of [old]. *)
Fixpoint partition_before (old s : string) : string :=
  match s with
  | EmptyString => EmptyString
  | String c s' => if startswith s old then EmptyString else String c (partition_before old s')
  end.

Fixpoint partition_after (old s : string) : string :=
  match s with
  | EmptyString => EmptyString
  | String c s' => if startswith s old then str_drop (String.length old) s else partition_after old s'
  end.

(** A slot [old] of the template string [s] is guarded against the text [p]
    when filling the slot cannot create an occurrence of [p] that the filling
    text does not already contain. *)
Definition guarded (p old s : string) : bool :=
  match p with
  | EmptyString => false
  | String a _ =>
      negb (has_char a (partition_before old s))
      && negb (overlaps_end p (partition_after old s))
      && negb (str_in p (partition_after old s))
  end.

(** The three resolved-slot conditions on a catalog entry: filling [<INPUT>]
    in the input text, or [<OUTPUT>] in the output text, creates no
    placeholder and no few-shot preamble that the filling does not bring. *)
Definition template_guarded (preamble : string) (t : Template.t) : bool :=
  guarded "<INPUT>" "<INPUT>" (Template.input t)
  && guarded "<OUTPUT>" "<INPUT>" (Template.input t)
  && guarded preamble "<INPUT>" (Template.input t)
  && guarded "<INPUT>" "<OUTPUT>" (Template.output t)
  && guarded "<OUTPUT>" "<OUTPUT>" (Template.output t).

(** The generator state after one draw, and the element [random.choice]
    picks in state [g]. *)
Definition advance (g : rng) : rng := λ i, g (S i).

Definition choice_of {A} (d : A) (seq : list A) (g : rng) : A :=
  default d (seq !! (g 0 `mod` length seq)).

(** The turns the data model gives a record of each split. *)
Definition expected_roles (split : string) : list Role :=
  if String.eqb split "test" then [ROLE_SYSTEM; ROLE_USER]
  else [ROLE_SYSTEM; ROLE_USER; ROLE_ASSISTANT].

(** What holds of the value a computation returns, when it returns one. *)
Definition returns {A} (x : result A * rng) (P : A → Prop) : Prop :=
  match x.1 with
  | Ok a => P a
  | Raise _ => True
  end.

(** The three splits [main] generates. *)
Definition known_split (split : string) : bool :=
  String.eqb split "train" || String.eqb split "dev" || String.eqb split "test".

(** A row has both fields. *)
Definition has_fields (item : row) : bool :=
  bool_decide (is_Some (item !! "input")) && bool_decide (is_Some (item !! "output")).

(** Rows whose assembly does not raise, in each pipeline. *)
Definition I2S_assembles (split : string) (item : row) : bool :=
  known_split split && has_fields item.

Definition S2F_assembles (canon enc : string → result string)
    (format : string) (token : bool) (split : string) (item : row) : bool :=
  known_split split && has_fields item
  && match item !! "input" with
     | Some input => is_ok (S2F.process_input canon enc input format token)
     | None => false
     end.

(** The indices, counted from [start], of the rows that satisfy [keep], in
    order. *)
Definition kept_from (start : nat) (keep : row → bool) (rows : list row) : list nat :=
  omap (λ p : nat * row, if keep p.2 then Some p.1 else None) (enumerate_from start rows).

Definition kept_indices (keep : row → bool) (rows : list row) : list nat :=
  kept_from 0 keep rows.

(** ** Sample inputs *)

(** A stand-in for the chemistry toolkit on SMILES that are already
    canonical: the text is returned as it is, the empty text is refused. *)
Definition sample_canon (s : string) : result string :=
  match s with
  | EmptyString => Raise (LibraryError "cannot parse")
  | String _ _ => Ok s
  end.

(** A stand-in for the SELFIES encoder on chains of one-letter atoms: every
    atom is bracketed, [CCO] becoming [[C][C][O]]. *)
Fixpoint sample_encoder_text (s : string) : string :=
  match s with
  | EmptyString => EmptyString
  | String c s' => String "[" (String c (String "]" (sample_encoder_text s')))
  end.

Definition sample_encoder (s : string) : result string := Ok (sample_encoder_text s).

Definition sample_tape : rng := λ i, 3 * i + 1.

Definition sample_rows : list row :=
  [ {[ "input" := "CCO"; "output" := "C2H6O" ]};
    {[ "input" := ""; "output" := "H2" ]};
    {[ "input" := "C"; "output" := "CH4" ]} ].

Definition sample_rows_missing : list row :=
  [ {[ "input" := "ethanol"; "output" := "CCO" ]};
    {[ "input" := "methane" ]};
    {[ "input" := "water"; "output" := "O" ]} ].

(** The catalog entry [random.choice(PROMPT_TEMPLATES)] picks in state [g]. *)
Definition chosen_template (catalog : list Template.t) (g : rng) : Template.t :=
  choice_of (Template.mk "" "") catalog g.

(** A stand-in for the chat-completion service: it answers every prompt
    with the same question and answer. *)
Definition sample_service (prompt : string) : result (gmap string string) :=
  Ok {[ "question" := "What links the two scenes?"; "answer" := "Both show pets." ]}.

Definition sample_pretrain : list Llava.Pretrain.t :=
  [ Llava.Pretrain.mk ["cat.jpg"]
      [ {[ "role" := "user"; "content" := "<image>" ]};
        {[ "role" := "assistant"; "content" := "a cat on a sofa" ]} ];
    Llava.Pretrain.mk ["dog.jpg"]
      [ {[ "role" := "user"; "content" := "<image>" ]};
        {[ "role" := "assistant"; "content" := "a dog in a park" ]} ] ].

(** [parser.add_argument("--format", type=str, default="smiles",
    choices=["smiles", "selfies"])], the same in both scripts: the value
    supplied, when it is one of the choices; the default when the option is
    absent; [None] when argparse refuses the value and exits. *)
Definition parse_format (supplied : option string) : option string :=
  match supplied with
  | None => Some "smiles"
  | Some s => if bool_decide (s ∈ ["smiles"; "selfies"]) then Some s else None
  end.

(** A service that is down: every call raises. *)
Definition sample_service_down (prompt : string) : result (gmap string string) :=
  Raise (LibraryError "connection refused").

(** A captioned image without its caption message, between two good ones. *)
Definition sample_pretrain_short : list Llava.Pretrain.t :=
  [ Llava.Pretrain.mk ["cat.jpg"]
      [ {[ "role" := "user"; "content" := "<image>" ]};
        {[ "role" := "assistant"; "content" := "a cat on a sofa" ]} ];
    Llava.Pretrain.mk ["bird.jpg"]
      [ {[ "role" := "user"; "content" := "<image>" ]} ] ].

(** The head of the system prompt, up to the captions. *)
Definition PROMPT_head : string :=
  "You are helping train a chat vision assistant that can take several image inputs and output text."
    +:+ nl +:+ nl +:+ "Here are the images you can see:" +:+ nl.

(** The first character of a text is not white space. *)
Definition starts_solid (s : string) : bool :=
  match s with
  | EmptyString => false
  | String c _ => negb (isspace c)
  end.

(** The caption lines [[f"Image {i+1} - {cap}" for i, cap in enumerate(captions)]]. *)
Definition caption_line_text (captions : list string) : list string :=
  Llava.caption_line <$> enumerate_from 0 captions.

(** A captioned image as [_build_convo] needs it: a second message with a
    content, and a first image path. *)
Definition well_formed_example (e : Llava.Pretrain.t) : Prop :=
  (∃ m cap, Llava.Pretrain.messages e !! 1 = Some m ∧ m !! "content" = Some cap)
  ∧ is_Some (Llava.Pretrain.images e !! 0).

(** The dict [dataset] of [main], with its three keys, and [dataset[split]]:
    [KeyError] on any other name. *)
Record Dataset := mkDataset {
  dataset_train : list row;
  dataset_dev : list row;
  dataset_test : list row
}.

Definition dataset_getitem (dataset : Dataset) (split : string) : result (list row) :=
  if String.eqb split "train" then Ok (dataset_train dataset)
  else if String.eqb split "dev" then Ok (dataset_dev dataset)
  else if String.eqb split "test" then Ok (dataset_test dataset)
  else Raise (KeyError split).

(** [gen(split)] as [main] defines it, closed over [dataset]: the rows are
    looked up first, then the loop runs over them. *)
Definition S2F_gen_of_dataset (canon enc : string → result string)
    (format : string) (token : bool) (dataset : Dataset) (split : string)
    : M (list Conv.t) :=
  rows ← lift (dataset_getitem dataset split);
  S2F.gen canon enc format token rows split.

Definition I2S_gen_of_dataset (format : string) (token : bool)
    (dataset : Dataset) (split : string) : M (list Conv.t) :=
  rows ← lift (dataset_getitem dataset split);
  I2S.gen format token rows split.

(** A record less its assistant turn: the first two messages. *)
Definition without_answer (c : Conv.t) : Conv.t :=
  Conv.mk (Conv.id c) (Conv.molecules c) (Conv.ground_truth c) (take 2 (Conv.messages c)).

(** A split with a row whose input is the text of a placeholder, before a
    clean row. *)
Definition sample_rows_dirty : list row :=
  [ {[ "input" := "<INPUT>"; "output" := "CCO" ]};
    {[ "input" := "water"; "output" := "O" ]} ].


(** The states of the random generator at the start of each of the
    [num_examples] rounds of the multi-image generator: the first round
    starts from [g], every later round from the state the round before it
    left. *)
Fixpoint round_states (openai_Client : result unit)
    (create_chat : string → result (gmap string string))
    (data : list Llava.Pretrain.t) (max_images num_examples : nat) (g : rng)
    : list rng :=
  match num_examples with
  | 0 => []
  | S n =>
      g :: round_states openai_Client create_chat data max_images n
             (Llava.gen_round openai_Client create_chat data max_images g).2
  end.
(** ** Facts about the string operations *)

Section StringFacts.

Lemma app_String c s x : String c s +:+ x = String c (s +:+ x).
Proof. reflexivity. Qed.

Lemma str_in_String p c s :
  str_in p (String c s) = startswith (String c s) p || str_in p s.
Proof. reflexivity. Qed.

Lemma startswith_nil_r s : startswith s "" = true.
Proof. by destruct s. Qed.

Lemma startswith_app s p x : startswith s p = true → startswith (s +:+ x) p = true.
Proof.
  revert s. induction p as [|a p IH]; intros s.
  - intros _. apply startswith_nil_r.
  - destruct s as [|b s]; simpl; [done|].
    case_decide; [apply IH | done].
Qed.

(** An occurrence of [p] at the head of [x +:+ post] lies inside [x] when no
    tail of [p] can start [post]. *)
Lemma startswith_local p post x :
  overlaps_end p post = false →
  startswith (x +:+ post) p = startswith x p.
Proof.
  revert x. induction p as [|a p IH]; intros x Hov.
  - by rewrite !startswith_nil_r.
  - simpl in Hov. apply orb_false_iff in Hov as [Hhead Htail].
    destruct x as [|b x].
    + exact Hhead.
    + rewrite app_String. simpl. case_decide; [by apply IH | done].
Qed.

Lemma str_in_app_post p post m :
  overlaps_end p post = false →
  str_in p post = false →
  str_in p (m +:+ post) = str_in p m.
Proof.
  intros Hov Hpost. induction m as [|c m IH].
  - change ("" +:+ post) with post. rewrite Hpost.
    destruct p; [by destruct post | done].
  - rewrite app_String, !str_in_String, <-app_String.
    by rewrite startswith_local, IH.
Qed.

Lemma str_in_app_pre a p pre x :
  has_char a pre = false →
  str_in (String a p) (pre +:+ x) = str_in (String a p) x.
Proof.
  induction pre as [|c pre IH]; [done|].
  simpl has_char. case_decide; [done|]. intros Hpre.
  rewrite app_String, str_in_String. simpl startswith.
  rewrite decide_False by done. by apply IH.
Qed.

(** Filling a guarded slot with [m] yields a text that contains [p] exactly
    when [m] does. *)
Lemma str_in_filled p old s m :
  guarded p old s = true →
  str_in p (partition_before old s +:+ m +:+ partition_after old s) = str_in p m.
Proof.
  unfold guarded. destruct p as [|a p]; [done|].
  rewrite !andb_true_iff, !negb_true_iff. intros [[Hpre Hov] Hpost].
  by rewrite str_in_app_pre, str_in_app_post.
Qed.

End StringFacts.

(** ** Facts about the runtime *)

Section RuntimeFacts.

Lemma random_choice_spec {A} (d : A) (seq : list A) (g : rng) :
  seq ≠ [] →
  random_choice seq g = (Ok (choice_of d seq g), advance g)
  ∧ choice_of d seq g ∈ seq.
Proof.
  intros Hne. unfold choice_of.
  assert (Hlt : g 0 `mod` length seq < length seq).
  { apply Nat.mod_upper_bound. by destruct seq. }
  destruct (lookup_lt_is_Some_2 seq _ Hlt) as [a Ha].
  rewrite Ha. split; [|by eapply list_elem_of_lookup_2].
  destruct seq as [|x seq]; [done|].
  unfold random_choice, mbind, M_bind, randbelow, lift. by rewrite Ha.
Qed.

Lemma bind_Ok {A B} (m : M A) (f : A → M B) g b g' :
  (m ≫= f) g = (Ok b, g') → ∃ a g1, m g = (Ok a, g1) ∧ f a g1 = (Ok b, g').
Proof.
  unfold mbind, M_bind. destruct (m g) as [[a|e] g1]; [|done]. eauto.
Qed.

Lemma lift_Ok {A} (r : result A) g a g' :
  lift r g = (Ok a, g') → r = Ok a ∧ g' = g.
Proof. unfold lift. by intros [= -> ->]. Qed.

Lemma generate_few_shot_examples_falsy rows n g :
  falsy_int n = true → generate_few_shot_examples rows n g = (Ok None, g).
Proof. unfold generate_few_shot_examples. by intros ->. Qed.

End RuntimeFacts.

(** ** The catalogs *)

Section Catalogs.

Lemma S2F_catalog_nonempty : S2F.PROMPT_TEMPLATES ≠ [].
Proof. done. Qed.

Lemma I2S_catalog_nonempty : I2S.PROMPT_TEMPLATES ≠ [].
Proof. done. Qed.

Lemma S2F_catalog_guarded :
  forallb (template_guarded S2F.FEW_SHOT_PROMPT) S2F.PROMPT_TEMPLATES = true.
Proof. vm_compute. reflexivity. Qed.

Lemma I2S_catalog_guarded :
  forallb (template_guarded I2S.FEW_SHOT_PROMPT) I2S.PROMPT_TEMPLATES = true.
Proof. vm_compute. reflexivity. Qed.

(** Every entry has one [<INPUT>] slot in its input text and one [<OUTPUT>]
    slot in its output text: [replace] fills exactly that slot. *)
Lemma S2F_catalog_slots t m :
  t ∈ S2F.PROMPT_TEMPLATES →
  str_replace (Template.input t) "<INPUT>" m
    = partition_before "<INPUT>" (Template.input t) +:+ m
        +:+ partition_after "<INPUT>" (Template.input t)
  ∧ str_replace (Template.output t) "<OUTPUT>" m
    = partition_before "<OUTPUT>" (Template.output t) +:+ m
        +:+ partition_after "<OUTPUT>" (Template.output t).
Proof.
  unfold S2F.PROMPT_TEMPLATES. intros Ht.
  repeat (apply elem_of_cons in Ht as [-> | Ht]; [split; reflexivity|]).
  by apply elem_of_nil in Ht.
Qed.

Lemma I2S_catalog_slots t m :
  t ∈ I2S.PROMPT_TEMPLATES →
  str_replace (Template.input t) "<INPUT>" m
    = partition_before "<INPUT>" (Template.input t) +:+ m
        +:+ partition_after "<INPUT>" (Template.input t)
  ∧ str_replace (Template.output t) "<OUTPUT>" m
    = partition_before "<OUTPUT>" (Template.output t) +:+ m
        +:+ partition_after "<OUTPUT>" (Template.output t).
Proof.
  unfold I2S.PROMPT_TEMPLATES. intros Ht.
  repeat (apply elem_of_cons in Ht as [-> | Ht]; [split; reflexivity|]).
  by apply elem_of_nil in Ht.
Qed.

End Catalogs.

(** ** What a filled template contains *)

Section Filled.

Variable catalog : list Template.t.
Variable preamble : string.
Hypothesis catalog_guarded : forallb (template_guarded preamble) catalog = true.
Hypothesis catalog_slots : ∀ t m, t ∈ catalog →
  str_replace (Template.input t) "<INPUT>" m
    = partition_before "<INPUT>" (Template.input t) +:+ m
        +:+ partition_after "<INPUT>" (Template.input t)
  ∧ str_replace (Template.output t) "<OUTPUT>" m
    = partition_before "<OUTPUT>" (Template.output t) +:+ m
        +:+ partition_after "<OUTPUT>" (Template.output t).

Lemma entry_guarded t : t ∈ catalog → template_guarded preamble t = true.
Proof.
  intros Ht. apply list_elem_of_In in Ht.
  by apply (proj1 (forallb_forall _ _) catalog_guarded).
Qed.

Lemma filled_input_in t m : t ∈ catalog →
  let user := str_replace (Template.input t) "<INPUT>" m in
  str_in "<INPUT>" user = str_in "<INPUT>" m
  ∧ str_in "<OUTPUT>" user = str_in "<OUTPUT>" m
  ∧ str_in preamble user = str_in preamble m.
Proof.
  intros Ht user. unfold user.
  rewrite (proj1 (catalog_slots t m Ht)).
  pose proof (entry_guarded t Ht) as Hg. unfold template_guarded in Hg.
  rewrite !andb_true_iff in Hg. destruct Hg as [[[[G1 G2] G3] _] _].
  by rewrite !str_in_filled.
Qed.

Lemma filled_output_in t m : t ∈ catalog →
  let answer := str_replace (Template.output t) "<OUTPUT>" m in
  str_in "<INPUT>" answer = str_in "<INPUT>" m
  ∧ str_in "<OUTPUT>" answer = str_in "<OUTPUT>" m.
Proof.
  intros Ht answer. unfold answer.
  rewrite (proj2 (catalog_slots t m Ht)).
  pose proof (entry_guarded t Ht) as Hg. unfold template_guarded in Hg.
  rewrite !andb_true_iff in Hg. destruct Hg as [[_ G4] G5].
  by rewrite !str_in_filled.
Qed.

Lemma filled_input_free t m : t ∈ catalog →
  placeholder_free (str_replace (Template.input t) "<INPUT>" m) = placeholder_free m.
Proof.
  intros Ht. unfold placeholder_free.
  destruct (filled_input_in t m Ht) as (-> & -> & _). done.
Qed.

Lemma filled_output_free t m : t ∈ catalog →
  placeholder_free (str_replace (Template.output t) "<OUTPUT>" m) = placeholder_free m.
Proof.
  intros Ht. unfold placeholder_free.
  destruct (filled_output_in t m Ht) as (-> & ->). done.
Qed.

End Filled.

(** ** The assemblers, as equations *)

Section Assemblers.

Variable canon enc : string → result string.

Lemma S2F_chosen_in g : chosen_template S2F.PROMPT_TEMPLATES g ∈ S2F.PROMPT_TEMPLATES.
Proof. apply random_choice_spec, S2F_catalog_nonempty. Qed.

Lemma I2S_chosen_in g : chosen_template I2S.PROMPT_TEMPLATES g ∈ I2S.PROMPT_TEMPLATES.
Proof. apply random_choice_spec, I2S_catalog_nonempty. Qed.

Lemma S2F_conversation_train_eq id input output format token g :
  S2F.conversation_train canon enc id input output format token g =
  match S2F.process_input canon enc input format token with
  | Ok (selfies, smiles, molecule) =>
      let t := chosen_template S2F.PROMPT_TEMPLATES g in
      (Ok (Conv.mk id
             (Conv.mkMolecules (MolText selfies) (MolText smiles))
             output
             [ Conv.mkMessage ROLE_SYSTEM S2F.SYSTEM_PROMPT;
               Conv.mkMessage ROLE_USER
                 (str_replace (Template.input t) "<INPUT>" molecule);
               Conv.mkMessage ROLE_ASSISTANT
                 (str_replace (Template.output t) "<OUTPUT>" output) ]),
       advance g)
  | Raise e => (Raise e, g)
  end.
Proof.
  unfold S2F.conversation_train, mbind, M_bind, lift.
  destruct (S2F.process_input _ _ _ _ _) as [[[selfies smiles] molecule]|e]; [|done].
  by rewrite (proj1 (random_choice_spec (Template.mk "" "") _ g S2F_catalog_nonempty)).
Qed.

Lemma S2F_conversation_test_eq id input output few_shots format token g :
  falsy_list few_shots = true →
  S2F.conversation_test canon enc id input output few_shots format token g =
  match S2F.process_input canon enc input format token with
  | Ok (selfies, smiles, molecule) =>
      let t := chosen_template S2F.PROMPT_TEMPLATES g in
      (Ok (Conv.mk id
             (Conv.mkMolecules (MolText selfies) (MolText smiles))
             output
             [ Conv.mkMessage ROLE_SYSTEM S2F.SYSTEM_PROMPT;
               Conv.mkMessage ROLE_USER
                 (str_replace (Template.input t) "<INPUT>" molecule) ]),
       advance g)
  | Raise e => (Raise e, g)
  end.
Proof.
  intros Hfew. unfold S2F.conversation_test, mbind, M_bind, lift.
  destruct (S2F.process_input _ _ _ _ _) as [[[selfies smiles] molecule]|e]; [|done].
  rewrite (proj1 (random_choice_spec (Template.mk "" "") _ g S2F_catalog_nonempty)).
  by rewrite Hfew.
Qed.

Lemma I2S_conversation_train_eq id input output format token g :
  I2S.conversation_train id input output format token g =
  let t := chosen_template I2S.PROMPT_TEMPLATES g in
  (Ok (Conv.mk id
         (Conv.mkMolecules MolEmptyList MolEmptyList)
         output
         [ Conv.mkMessage ROLE_SYSTEM I2S.SYSTEM_PROMPT;
           Conv.mkMessage ROLE_USER
             (str_replace (Template.input t) "<INPUT>" input);
           Conv.mkMessage ROLE_ASSISTANT
             (str_replace (Template.output t) "<OUTPUT>" output) ]),
   advance g).
Proof.
  unfold I2S.conversation_train, mbind, M_bind.
  by rewrite (proj1 (random_choice_spec (Template.mk "" "") _ g I2S_catalog_nonempty)).
Qed.

Lemma I2S_conversation_test_eq id input output few_shots format token g :
  falsy_list few_shots = true →
  I2S.conversation_test id input output few_shots format token g =
  let t := chosen_template I2S.PROMPT_TEMPLATES g in
  (Ok (Conv.mk id
         (Conv.mkMolecules MolEmptyList MolEmptyList)
         output
         [ Conv.mkMessage ROLE_SYSTEM I2S.SYSTEM_PROMPT;
           Conv.mkMessage ROLE_USER
             (str_replace (Template.input t) "<INPUT>" input) ]),
   advance g).
Proof.
  intros Hfew. unfold I2S.conversation_test, mbind, M_bind.
  rewrite (proj1 (random_choice_spec (Template.mk "" "") _ g I2S_catalog_nonempty)).
  by rewrite Hfew.
Qed.

End Assemblers.

(** ** Indices of the rows that are kept *)

Section KeptIndices.

Variable keep : row → bool.

Lemma kept_from_cons start item rest :
  kept_from start keep (item :: rest)
  = (if keep item then [start] else []) ++ kept_from (S start) keep rest.
Proof. unfold kept_from. simpl. by destruct (keep item). Qed.

Lemma elem_of_kept_from start rows j :
  j ∈ kept_from start keep rows ↔
  ∃ item, start ≤ j ∧ rows !! (j - start) = Some item ∧ keep item = true.
Proof.
  revert start. induction rows as [|item rest IH]; intros start.
  - split; [intros H; by apply elem_of_nil in H | by intros (? & _ & ? & _)].
  - rewrite kept_from_cons, elem_of_app, IH. split.
    + intros [Hj | (item' & Hle & Hlook & Hk)].
      * destruct (keep item) eqn:Hk; [|by apply elem_of_nil in Hj].
        apply list_elem_of_singleton in Hj as ->.
        exists item. by rewrite Nat.sub_diag.
      * exists item'. split; [lia|]. split; [|done].
        by replace (j - start) with (S (j - S start)) by lia.
    + intros (item' & Hle & Hlook & Hk).
      destruct (decide (j = start)) as [->|Hne].
      * rewrite Nat.sub_diag in Hlook. injection Hlook as ->.
        left. rewrite Hk. by apply list_elem_of_singleton.
      * right. exists item'. split; [lia|]. split; [|done].
        by replace (j - start) with (S (j - S start)) in Hlook by lia.
Qed.

Lemma kept_from_length start rows :
  length (kept_from start keep rows) ≤ length rows.
Proof.
  revert start. induction rows as [|item rest IH]; intros start; [done|].
  rewrite kept_from_cons, length_app. specialize (IH (S start)).
  destruct (keep item); simpl; lia.
Qed.

Lemma kept_from_length_lt start rows i item :
  rows !! i = Some item → keep item = false →
  length (kept_from start keep rows) < length rows.
Proof.
  revert start i. induction rows as [|item' rest IH]; intros start i; [done|].
  rewrite kept_from_cons, length_app. destruct i as [|i]; simpl.
  - intros [= ->] ->. pose proof (kept_from_length (S start) rest). simpl. lia.
  - intros Hlook Hk. specialize (IH (S start) i Hlook Hk).
    destruct (keep item'); simpl; lia.
Qed.

Lemma kept_indices_sorted rows :
  StronglySorted lt (kept_indices keep rows).
Proof.
  unfold kept_indices. generalize 0 as start.
  induction rows as [|item rest IH]; intros start; [constructor|].
  rewrite kept_from_cons. destruct (keep item); [|apply IH].
  constructor; [apply IH|].
  apply Forall_forall. intros j Hj.
  apply (elem_of_kept_from (S start) rest j) in Hj as (? & Hle & _). lia.
Qed.

End KeptIndices.

(** ** The generator loop *)

Section Loop.

Variable body : nat → row → M Conv.t.

Lemma gen_loop_cons id item rest g :
  gen_loop body id (item :: rest) g =
  match body id item g with
  | (r, g1) =>
      match gen_loop body (S id) rest g1 with
      | (Ok out, g2) =>
          (Ok (match r with Ok c => c :: out | Raise _ => out end), g2)
      | (Raise e, g2) => (Raise e, g2)
      end
  end.
Proof.
  simpl. unfold mbind, M_bind, try_except.
  destruct (body id item g) as [[c|e] g1];
    by destruct (gen_loop body (S id) rest g1) as [[out|e'] g2].
Qed.

(** The loop never raises: whatever the body does, a list comes out. *)
Lemma gen_loop_total id items g :
  ∃ out g', gen_loop body id items g = (Ok out, g').
Proof.
  revert id g. induction items as [|item rest IH]; intros id g.
  - by eexists _, _.
  - rewrite gen_loop_cons. destruct (body id item g) as [r g1].
    destruct (IH (S id) g1) as (out & g2 & ->). by eexists _, _.
Qed.

Lemma gen_loop_length id items g out g' :
  gen_loop body id items g = (Ok out, g') → length out ≤ length items.
Proof.
  revert id g out g'. induction items as [|item rest IH]; intros id g out g'.
  - intros [= <- _]. done.
  - rewrite gen_loop_cons. destruct (body id item g) as [r g1].
    destruct (gen_loop body (S id) rest g1) as [[out1|e] g2] eqn:Hrest; [|done].
    apply IH in Hrest. intros [= <- _]. destruct r; simpl; lia.
Qed.

(** Every record that comes out was returned by the body on some row, at
    that row's position. *)
Lemma gen_loop_elem id items g out g' c :
  gen_loop body id items g = (Ok out, g') → c ∈ out →
  ∃ k item gk gk', items !! k = Some item ∧ body (id + k) item gk = (Ok c, gk').
Proof.
  revert id g out g'. induction items as [|item rest IH]; intros id g out g'.
  - intros [= <- _] Hc. by apply elem_of_nil in Hc.
  - rewrite gen_loop_cons. destruct (body id item g) as [r g1] eqn:Hbody.
    destruct (gen_loop body (S id) rest g1) as [[out1|e] g2] eqn:Hrest; [|done].
    intros [= <- _] Hc.
    assert (Hcases : (r = Ok c) ∨ c ∈ out1).
    { destruct r; [apply elem_of_cons in Hc as [->|]|]; auto. }
    destruct Hcases as [-> | Hin].
    + exists 0, item, g, g1. by rewrite Nat.add_0_r.
    + destruct (IH _ _ _ _ Hrest Hin) as (k & item' & gk & gk' & Hk & Hb).
      exists (S k), item', gk, gk'. split; [done|].
      by replace (id + S k) with (S id + k) by lia.
Qed.

(** When the body numbers its record with the index it is given, and
    whether it raises depends on the row alone, the ids that come out are
    the indices of the rows on which it does not raise. *)
Hypothesis body_id : ∀ j item g c g', body j item g = (Ok c, g') → Conv.id c = j.
Variable keep : row → bool.
Hypothesis body_ok : ∀ j item g, is_ok (body j item g).1 = keep item.

Lemma gen_loop_ids id items g out g' :
  gen_loop body id items g = (Ok out, g') →
  Conv.id <$> out = kept_from id keep items.
Proof.
  revert id g out g'. induction items as [|item rest IH]; intros id g out g'.
  - intros [= <- _]. done.
  - rewrite gen_loop_cons. destruct (body id item g) as [r g1] eqn:Hbody.
    destruct (gen_loop body (S id) rest g1) as [[out1|e] g2] eqn:Hrest; [|done].
    apply IH in Hrest. intros [= <- _].
    pose proof (body_ok id item g) as Hok. rewrite Hbody in Hok.
    rewrite kept_from_cons, <-Hok, <-Hrest.
    destruct r as [c|e]; simpl; [|done].
    by rewrite (body_id _ _ _ _ _ Hbody).
Qed.

End Loop.


(** ** The body of the loop in each pipeline *)

Section Bodies.

Variable canon enc : string → result string.
Variable format : string.
Variable token : bool.

Lemma known_split_cases split :
  known_split split = true → split = "train" ∨ split = "dev" ∨ split = "test".
Proof.
  unfold known_split. rewrite !orb_true_iff, !String.eqb_eq. tauto.
Qed.

Lemma S2F_gen_body_eq pool split id item g :
  S2F.gen_body canon enc format token pool split id item g =
  if known_split split then
    match item !! "input", item !! "output" with
    | None, _ => (Raise (KeyError "input"), g)
    | Some _, None => (Raise (KeyError "output"), g)
    | Some input, Some output =>
        if String.eqb split "test"
        then S2F.conversation_test canon enc id input output None format token g
        else S2F.conversation_train canon enc id input output format token g
    end
  else (Raise (UnboundLocalError "result"), g).
Proof.
  unfold S2F.gen_body, known_split, getitem, mbind, M_bind, lift.
  destruct (String.eqb split "train") eqn:Htrain.
  { apply String.eqb_eq in Htrain as ->. simpl.
    by destruct (item !! "input"), (item !! "output"). }
  destruct (String.eqb split "dev") eqn:Hdev.
  { apply String.eqb_eq in Hdev as ->. simpl.
    by destruct (item !! "input"), (item !! "output"). }
  destruct (String.eqb split "test") eqn:Htest; simpl; [|done].
  by destruct (item !! "input"), (item !! "output").
Qed.

Lemma I2S_gen_body_eq pool split id item g :
  I2S.gen_body format token pool split id item g =
  if known_split split then
    match item !! "input", item !! "output" with
    | None, _ => (Raise (KeyError "input"), g)
    | Some _, None => (Raise (KeyError "output"), g)
    | Some input, Some output =>
        if String.eqb split "test"
        then I2S.conversation_test id input output None format token g
        else I2S.conversation_train id input output format token g
    end
  else (Raise (UnboundLocalError "result"), g).
Proof.
  unfold I2S.gen_body, known_split, getitem, mbind, M_bind, lift.
  destruct (String.eqb split "train") eqn:Htrain.
  { apply String.eqb_eq in Htrain as ->. simpl.
    by destruct (item !! "input"), (item !! "output"). }
  destruct (String.eqb split "dev") eqn:Hdev.
  { apply String.eqb_eq in Hdev as ->. simpl.
    by destruct (item !! "input"), (item !! "output"). }
  destruct (String.eqb split "test") eqn:Htest; simpl; [|done].
  by destruct (item !! "input"), (item !! "output").
Qed.

(** What a record that the formula pipeline yields looks like. *)
Lemma S2F_gen_body_Ok pool split id item g c g' :
  S2F.gen_body canon enc format token pool split id item g = (Ok c, g') →
  ∃ input output selfies smiles molecule,
    known_split split = true
    ∧ item !! "input" = Some input ∧ item !! "output" = Some output
    ∧ S2F.process_input canon enc input format token = Ok (selfies, smiles, molecule)
    ∧ c = Conv.mk id
            (Conv.mkMolecules (MolText selfies) (MolText smiles))
            output
            (Conv.mkMessage ROLE_SYSTEM S2F.SYSTEM_PROMPT
             :: Conv.mkMessage ROLE_USER
                  (str_replace (Template.input (chosen_template S2F.PROMPT_TEMPLATES g))
                     "<INPUT>" molecule)
             :: if String.eqb split "test" then []
                else [ Conv.mkMessage ROLE_ASSISTANT
                         (str_replace (Template.output (chosen_template S2F.PROMPT_TEMPLATES g))
                            "<OUTPUT>" output) ]).
Proof.
  rewrite S2F_gen_body_eq. destruct (known_split split) eqn:Hsplit; [|done].
  destruct (item !! "input") as [input|]; [|done].
  destruct (item !! "output") as [output|]; [|done].
  rewrite S2F_conversation_train_eq, S2F_conversation_test_eq by done.
  destruct (S2F.process_input _ _ _ _ _) as [[[selfies smiles] molecule]|e] eqn:Hp;
    [|by destruct (String.eqb split "test")].
  intros Hc. exists input, output, selfies, smiles, molecule.
  repeat (split; [done|]).
  destruct (String.eqb split "test"); by injection Hc as <- _.
Qed.

Lemma S2F_gen_body_ok pool split id item g :
  is_ok (S2F.gen_body canon enc format token pool split id item g).1
  = S2F_assembles canon enc format token split item.
Proof.
  rewrite S2F_gen_body_eq. unfold S2F_assembles, has_fields.
  destruct (known_split split); [|done].
  destruct (item !! "input") as [input|]; [|done].
  destruct (item !! "output") as [output|]; [|done].
  rewrite S2F_conversation_train_eq, S2F_conversation_test_eq by done.
  rewrite !bool_decide_eq_true_2 by done. simpl.
  by destruct (S2F.process_input _ _ _ _ _) as [[[??]?]|?], (String.eqb split "test").
Qed.

(** What a record that the name pipeline yields looks like. *)
Lemma I2S_gen_body_Ok pool split id item g c g' :
  I2S.gen_body format token pool split id item g = (Ok c, g') →
  ∃ input output,
    known_split split = true
    ∧ item !! "input" = Some input ∧ item !! "output" = Some output
    ∧ c = Conv.mk id
            (Conv.mkMolecules MolEmptyList MolEmptyList)
            output
            (Conv.mkMessage ROLE_SYSTEM I2S.SYSTEM_PROMPT
             :: Conv.mkMessage ROLE_USER
                  (str_replace (Template.input (chosen_template I2S.PROMPT_TEMPLATES g))
                     "<INPUT>" input)
             :: if String.eqb split "test" then []
                else [ Conv.mkMessage ROLE_ASSISTANT
                         (str_replace (Template.output (chosen_template I2S.PROMPT_TEMPLATES g))
                            "<OUTPUT>" output) ]).
Proof.
  rewrite I2S_gen_body_eq. destruct (known_split split) eqn:Hsplit; [|done].
  destruct (item !! "input") as [input|]; [|done].
  destruct (item !! "output") as [output|]; [|done].
  rewrite I2S_conversation_train_eq, I2S_conversation_test_eq by done.
  intros Hc. exists input, output. repeat (split; [done|]).
  destruct (String.eqb split "test"); by injection Hc as <- _.
Qed.

Lemma I2S_gen_body_ok pool split id item g :
  is_ok (I2S.gen_body format token pool split id item g).1
  = I2S_assembles split item.
Proof.
  rewrite I2S_gen_body_eq. unfold I2S_assembles, has_fields.
  destruct (known_split split); [|done].
  destruct (item !! "input") as [input|]; [|done].
  destruct (item !! "output") as [output|]; [|done].
  rewrite I2S_conversation_train_eq, I2S_conversation_test_eq by done.
  rewrite !bool_decide_eq_true_2 by done.
  by destruct (String.eqb split "test").
Qed.

Lemma S2F_gen_body_id pool split id item g c g' :
  S2F.gen_body canon enc format token pool split id item g = (Ok c, g') →
  Conv.id c = id.
Proof. intros H. by apply S2F_gen_body_Ok in H as (?&?&?&?&?&_&_&_&_&->). Qed.

Lemma I2S_gen_body_id pool split id item g c g' :
  I2S.gen_body format token pool split id item g = (Ok c, g') →
  Conv.id c = id.
Proof. intros H. by apply I2S_gen_body_Ok in H as (?&?&_&_&_&->). Qed.

End Bodies.

(** ** A run of [gen] *)

Section Runs.

Variable canon enc : string → result string.
Variable format : string.
Variable token : bool.

(** A run of the formula pipeline over a split returns a list; its ids are
    the indices of the rows that assemble; every record was returned by the
    body on the row its id names. *)
Lemma S2F_gen_run rows split g :
  ∃ out g',
    S2F.gen canon enc format token rows split g = (Ok out, g')
    ∧ Conv.id <$> out = kept_indices (S2F_assembles canon enc format token split) rows
    ∧ ∀ c, c ∈ out → ∃ item gk gk',
        rows !! Conv.id c = Some item
        ∧ S2F.gen_body canon enc format token rows split (Conv.id c) item gk = (Ok c, gk').
Proof.
  unfold S2F.gen.
  destruct (gen_loop_total (S2F.gen_body canon enc format token rows split) 0 rows g)
    as (out & g' & Hrun).
  exists out, g'. split; [done|]. split.
  - eapply gen_loop_ids; [| |exact Hrun].
    + intros j item gj c gj'. apply S2F_gen_body_id.
    + intros j item gj. apply S2F_gen_body_ok.
  - intros c Hc.
    destruct (gen_loop_elem _ _ _ _ _ _ c Hrun Hc) as (k & item & gk & gk' & Hk & Hb).
    simpl in Hb. pose proof (S2F_gen_body_id _ _ _ _ _ _ _ _ _ _ _ Hb) as Hid.
    exists item, gk, gk'. by rewrite Hid.
Qed.

Lemma I2S_gen_run rows split g :
  ∃ out g',
    I2S.gen format token rows split g = (Ok out, g')
    ∧ Conv.id <$> out = kept_indices (I2S_assembles split) rows
    ∧ ∀ c, c ∈ out → ∃ item gk gk',
        rows !! Conv.id c = Some item
        ∧ I2S.gen_body format token rows split (Conv.id c) item gk = (Ok c, gk').
Proof.
  unfold I2S.gen.
  destruct (gen_loop_total (I2S.gen_body format token rows split) 0 rows g)
    as (out & g' & Hrun).
  exists out, g'. split; [done|]. split.
  - eapply gen_loop_ids; [| |exact Hrun].
    + intros j item gj c gj'. apply I2S_gen_body_id.
    + intros j item gj. apply I2S_gen_body_ok.
  - intros c Hc.
    destruct (gen_loop_elem _ _ _ _ _ _ c Hrun Hc) as (k & item & gk & gk' & Hk & Hb).
    simpl in Hb. pose proof (I2S_gen_body_id _ _ _ _ _ _ _ _ _ Hb) as Hid.
    exists item, gk, gk'. by rewrite Hid.
Qed.

End Runs.

(** ** Mode selection of [process_input] *)

Section ProcessInput.

Variable canon enc : string → result string.

Lemma S2F_process_input_eq input format token smiles selfies :
  canon input = Ok smiles → enc smiles = Ok selfies →
  S2F.process_input canon enc input format token =
  if token then Ok (selfies, smiles, S2F.MOLECULE_TOKEN)
  else if String.eqb format "smiles" then Ok (selfies, smiles, smiles)
  else if String.eqb format "selfies" then Ok (selfies, smiles, selfies)
  else Raise (ValueError ("Unsupported molecule format: " +:+ format)).
Proof.
  intros Hc He. unfold S2F.process_input, mbind, result_bind. rewrite Hc, He.
  destruct token; [done|].
  by destruct (String.eqb format "smiles"), (String.eqb format "selfies").
Qed.

(** The name script carries the same [process_input]; it does not call it. *)
Lemma I2S_process_input_same :
  I2S.process_input canon enc = S2F.process_input canon enc.
Proof. reflexivity. Qed.

End ProcessInput.

(** C7. When canonicalization and SELFIES encoding of the input succeed,
    [process_input] raises exactly when [token] is false and [format] is
    neither ["smiles"] nor ["selfies"] (the error is then the [ValueError] on
    the unsupported format); with [token] true the molecule is the opaque
    token, with [token] false and format ["smiles"] it is the canonical
    SMILES, with [token] false and format ["selfies"] it is the SELFIES
    string. *)
Theorem C7_process_input_modes (canon enc : string → result string)
    (input format : string) (token : bool) (smiles selfies : string) :
  canon input = Ok smiles →
  enc smiles = Ok selfies →
  (is_ok (S2F.process_input canon enc input format token) = false
     ↔ token = false ∧ format ≠ "smiles" ∧ format ≠ "selfies")
  ∧ (token = false ∧ format ≠ "smiles" ∧ format ≠ "selfies" →
       S2F.process_input canon enc input format token
       = Raise (ValueError ("Unsupported molecule format: " +:+ format)))
  ∧ (token = true →
       S2F.process_input canon enc input format token
       = Ok (selfies, smiles, S2F.MOLECULE_TOKEN))
  ∧ (token = false → format = "smiles" →
       S2F.process_input canon enc input format token = Ok (selfies, smiles, smiles))
  ∧ (token = false → format = "selfies" →
       S2F.process_input canon enc input format token = Ok (selfies, smiles, selfies)).
Proof.
  intros Hc He. rewrite (S2F_process_input_eq canon enc input format token _ _ Hc He).
  destruct token; [simpl; intuition (simpl in *; congruence)|].
  destruct (String.eqb format "smiles") eqn:Hsm.
  { apply String.eqb_eq in Hsm as ->. simpl; intuition (simpl in *; congruence). }
  apply String.eqb_neq in Hsm.
  destruct (String.eqb format "selfies") eqn:Hse.
  { apply String.eqb_eq in Hse as ->. simpl; intuition (simpl in *; congruence). }
  apply String.eqb_neq in Hse. simpl; intuition (simpl in *; congruence).
Qed.

Lemma C7_process_input_modes_witness :
  sample_canon "CCO" = Ok "CCO"
  ∧ sample_encoder "CCO" = Ok "[C][C][O]"
  ∧ S2F.process_input sample_canon sample_encoder "CCO" "inchi" false
    = Raise (ValueError "Unsupported molecule format: inchi")
  ∧ S2F.process_input sample_canon sample_encoder "CCO" "inchi" true
    = Ok ("[C][C][O]", "CCO", "<molecule_2d>").
Proof.
  split; [reflexivity|]. split; [reflexivity|]. split.
  - apply (C7_process_input_modes sample_canon sample_encoder
             "CCO" "inchi" false "CCO" "[C][C][O]"); [reflexivity..|].
    repeat split; discriminate.
  - apply (C7_process_input_modes sample_canon sample_encoder
             "CCO" "inchi" true "CCO" "[C][C][O]"); reflexivity.
Defined.

(** ** The command line *)

(** C10. In both molecule pipelines [--token] is converted with [bool]:
    every non-empty value, ["False"] and ["0"] included, gives [token = True];
    only the empty string gives [False]; the default is [True]. *)
Theorem C10_token_option_is_truthiness :
  (∀ s, s ≠ "" ↔ S2F.args_token_of_cli (Some s) = true)
  ∧ (∀ s, s ≠ "" ↔ I2S.args_token_of_cli (Some s) = true)
  ∧ (∀ s, S2F.args_token_of_cli (Some s) = false ↔ s = "")
  ∧ (∀ s, I2S.args_token_of_cli (Some s) = false ↔ s = "")
  ∧ S2F.args_token_of_cli (Some "False") = true
  ∧ I2S.args_token_of_cli (Some "False") = true
  ∧ S2F.args_token_of_cli (Some "0") = true
  ∧ I2S.args_token_of_cli (Some "0") = true
  ∧ S2F.args_token_of_cli None = true
  ∧ I2S.args_token_of_cli None = true.
Proof.
  repeat split; try done; by destruct s.
Qed.

(** ** Shape of the emitted records *)

Section Shape.

Variable canon enc : string → result string.
Variable format : string.
Variable token : bool.

Lemma S2F_record_shape rows split id item g c g' :
  rows !! id = Some item →
  S2F.gen_body canon enc format token rows split id item g = (Ok c, g') →
  Conv.role <$> Conv.messages c = expected_roles split
  ∧ (rows !! id) ≫= (.!! "output") = Some (Conv.ground_truth c).
Proof.
  intros Hrow Hb. rewrite Hrow. simpl.
  apply S2F_gen_body_Ok in Hb as (input & output & sf & smi & mol & _ & _ & Hout & _ & ->).
  split; [|done]. unfold expected_roles. by destruct (String.eqb split "test").
Qed.

Lemma I2S_record_shape rows split id item g c g' :
  rows !! id = Some item →
  I2S.gen_body format token rows split id item g = (Ok c, g') →
  Conv.role <$> Conv.messages c = expected_roles split
  ∧ (rows !! id) ≫= (.!! "output") = Some (Conv.ground_truth c).
Proof.
  intros Hrow Hb. rewrite Hrow. simpl.
  apply I2S_gen_body_Ok in Hb as (input & output & _ & _ & Hout & ->).
  split; [|done]. unfold expected_roles. by destruct (String.eqb split "test").
Qed.

Lemma S2F_conversation_test_shape id input output few_shots g c g' :
  S2F.conversation_test canon enc id input output few_shots format token g = (Ok c, g') →
  Conv.role <$> Conv.messages c = [ROLE_SYSTEM; ROLE_USER]
  ∧ Conv.ground_truth c = output.
Proof.
  unfold S2F.conversation_test. intros Hrun.
  apply bind_Ok in Hrun as ([[selfies smiles] molecule] & g1 & _ & Hrun).
  apply bind_Ok in Hrun as (t & g2 & _ & Hrun).
  apply bind_Ok in Hrun as (content & g3 & _ & Hrun).
  by injection Hrun as <- _.
Qed.

Lemma I2S_conversation_test_shape id input output few_shots g c g' :
  I2S.conversation_test id input output few_shots format token g = (Ok c, g') →
  Conv.role <$> Conv.messages c = [ROLE_SYSTEM; ROLE_USER]
  ∧ Conv.ground_truth c = output.
Proof.
  unfold I2S.conversation_test. intros Hrun.
  apply bind_Ok in Hrun as (t & g2 & _ & Hrun).
  apply bind_Ok in Hrun as (content & g3 & _ & Hrun).
  by injection Hrun as <- _.
Qed.

Lemma S2F_conversation_train_shape id input output g c g' :
  S2F.conversation_train canon enc id input output format token g = (Ok c, g') →
  Conv.role <$> Conv.messages c = [ROLE_SYSTEM; ROLE_USER; ROLE_ASSISTANT]
  ∧ Conv.ground_truth c = output.
Proof.
  rewrite S2F_conversation_train_eq.
  destruct (S2F.process_input _ _ _ _ _) as [[[selfies smiles] molecule]|e]; [|done].
  by intros [= <- _].
Qed.

Lemma I2S_conversation_train_shape id input output g c g' :
  I2S.conversation_train id input output format token g = (Ok c, g') →
  Conv.role <$> Conv.messages c = [ROLE_SYSTEM; ROLE_USER; ROLE_ASSISTANT]
  ∧ Conv.ground_truth c = output.
Proof. rewrite I2S_conversation_train_eq. by intros [= <- _]. Qed.

Lemma returns_intro {A} (x : result A * rng) (P : A → Prop) :
  (∀ a g', x = (Ok a, g') → P a) → returns x P.
Proof.
  unfold returns. destruct x as [[a|e] g']; [|done]. intros H. by eapply H.
Qed.

End Shape.

(** C4. In both molecule pipelines every record of a train or dev split has
    exactly the turns system, user, assistant, in that order, every record of
    a test split has exactly the turns system, user, and the [ground_truth] of
    every record is the [output] field of the row it was made from.  The same
    holds of the two assemblers on their own: what [conversation_train]
    returns has the three turns, what [conversation_test] returns has the two
    turns, with or without few-shot examples, and [ground_truth] is the
    [output] argument. *)
Theorem C4_turns_and_ground_truth (canon enc : string → result string)
    (format : string) (token : bool) (rows : list row) (split : string) (g : rng) :
  expected_roles "train" = [ROLE_SYSTEM; ROLE_USER; ROLE_ASSISTANT]
  ∧ expected_roles "dev" = [ROLE_SYSTEM; ROLE_USER; ROLE_ASSISTANT]
  ∧ expected_roles "test" = [ROLE_SYSTEM; ROLE_USER]
  ∧ (∃ out g',
       S2F.gen canon enc format token rows split g = (Ok out, g')
       ∧ Forall (λ c,
           Conv.role <$> Conv.messages c = expected_roles split
           ∧ (rows !! Conv.id c) ≫= (.!! "output") = Some (Conv.ground_truth c)) out)
  ∧ (∃ out g',
       I2S.gen format token rows split g = (Ok out, g')
       ∧ Forall (λ c,
           Conv.role <$> Conv.messages c = expected_roles split
           ∧ (rows !! Conv.id c) ≫= (.!! "output") = Some (Conv.ground_truth c)) out)
  ∧ (∀ id input output few_shots,
       returns (S2F.conversation_train canon enc id input output format token g)
         (λ c, Conv.role <$> Conv.messages c = [ROLE_SYSTEM; ROLE_USER; ROLE_ASSISTANT]
               ∧ Conv.ground_truth c = output)
       ∧ returns (I2S.conversation_train id input output format token g)
         (λ c, Conv.role <$> Conv.messages c = [ROLE_SYSTEM; ROLE_USER; ROLE_ASSISTANT]
               ∧ Conv.ground_truth c = output)
       ∧ returns (S2F.conversation_test canon enc id input output few_shots format token g)
         (λ c, Conv.role <$> Conv.messages c = [ROLE_SYSTEM; ROLE_USER]
               ∧ Conv.ground_truth c = output)
       ∧ returns (I2S.conversation_test id input output few_shots format token g)
         (λ c, Conv.role <$> Conv.messages c = [ROLE_SYSTEM; ROLE_USER]
               ∧ Conv.ground_truth c = output)).
Proof.
  do 3 (split; [reflexivity|]). split; [|split]; [| |
    intros id input output few_shots;
    repeat split; apply returns_intro; intros c g';
    [ apply S2F_conversation_train_shape | apply I2S_conversation_train_shape
    | apply S2F_conversation_test_shape | apply I2S_conversation_test_shape ] ].
  - destruct (S2F_gen_run canon enc format token rows split g)
      as (out & g' & Hrun & _ & Hall).
    exists out, g'. split; [done|]. apply Forall_forall. intros c Hc.
    destruct (Hall c Hc) as (item & gk & gk' & Hrow & Hb).
    by eapply S2F_record_shape.
  - destruct (I2S_gen_run format token rows split g)
      as (out & g' & Hrun & _ & Hall).
    exists out, g'. split; [done|]. apply Forall_forall. intros c Hc.
    destruct (Hall c Hc) as (item & gk & gk' & Hrow & Hb).
    by eapply I2S_record_shape.
Qed.

(** ** Ids and dropped rows *)

Section Ids.

Variable keep : row → bool.
Variable rows : list row.

Lemma elem_of_kept_indices j :
  j ∈ kept_indices keep rows ↔ ∃ item, rows !! j = Some item ∧ keep item = true.
Proof.
  unfold kept_indices. rewrite elem_of_kept_from, Nat.sub_0_r.
  split; [intros (item & _ & ? & ?) | intros (item & ? & ?)]; exists item;
    repeat split; try done; lia.
Qed.

(** A dropped row that is followed by a kept one leaves a hole in the ids:
    they are not [0, 1, ..., m-1]. *)
Lemma kept_indices_gap i j item_i item_j :
  i < j →
  rows !! i = Some item_i → keep item_i = false →
  rows !! j = Some item_j → keep item_j = true →
  kept_indices keep rows ≠ seq 0 (length (kept_indices keep rows)).
Proof.
  intros Hlt Hi Hki Hj Hkj Heq.
  assert (Hjin : j ∈ kept_indices keep rows) by (apply elem_of_kept_indices; eauto).
  assert (Hiin : i ∈ kept_indices keep rows).
  { rewrite Heq in Hjin |- *. apply elem_of_seq in Hjin. apply elem_of_seq. lia. }
  apply elem_of_kept_indices in Hiin as (item & Hi' & Hk). congruence.
Qed.

End Ids.

(** C9. In both molecule pipelines the id of every emitted record is the
    zero-based index of its source row in the input split: the record is what
    the loop body returns on the row at that index.  Whether the body raises
    depends on the row alone, and the emitted ids are the indices of the rows
    on which it does not raise, in increasing order; so when a row is dropped
    and a later one is emitted, the later id is unchanged and the id sequence
    has a hole instead of being [0, 1, 2, ...]. *)
Theorem C9_ids_are_row_indices (canon enc : string → result string)
    (format : string) (token : bool) (rows : list row) (split : string) (g : rng) :
  (∀ j item gj,
     is_ok (S2F.gen_body canon enc format token rows split j item gj).1
     = S2F_assembles canon enc format token split item)
  ∧ (∀ j item gj,
     is_ok (I2S.gen_body format token rows split j item gj).1
     = I2S_assembles split item)
  ∧ (∃ out g',
     S2F.gen canon enc format token rows split g = (Ok out, g')
     ∧ Forall (λ c, ∃ item gk gk',
         rows !! Conv.id c = Some item
         ∧ S2F.gen_body canon enc format token rows split (Conv.id c) item gk
           = (Ok c, gk')) out
     ∧ Conv.id <$> out = kept_indices (S2F_assembles canon enc format token split) rows
     ∧ StronglySorted lt (Conv.id <$> out)
     ∧ (∀ i j item_i item_j,
          i < j →
          rows !! i = Some item_i →
          S2F_assembles canon enc format token split item_i = false →
          rows !! j = Some item_j →
          S2F_assembles canon enc format token split item_j = true →
          (i ∉ (Conv.id <$> out)) ∧ j ∈ (Conv.id <$> out)
          ∧ Conv.id <$> out ≠ seq 0 (length out)))
  ∧ (∃ out g',
     I2S.gen format token rows split g = (Ok out, g')
     ∧ Forall (λ c, ∃ item gk gk',
         rows !! Conv.id c = Some item
         ∧ I2S.gen_body format token rows split (Conv.id c) item gk = (Ok c, gk')) out
     ∧ Conv.id <$> out = kept_indices (I2S_assembles split) rows
     ∧ StronglySorted lt (Conv.id <$> out)
     ∧ (∀ i j item_i item_j,
          i < j →
          rows !! i = Some item_i →
          I2S_assembles split item_i = false →
          rows !! j = Some item_j →
          I2S_assembles split item_j = true →
          (i ∉ (Conv.id <$> out)) ∧ j ∈ (Conv.id <$> out)
          ∧ Conv.id <$> out ≠ seq 0 (length out))).
Proof.
  split; [intros; apply S2F_gen_body_ok|].
  split; [intros; apply I2S_gen_body_ok|].
  split.
  - destruct (S2F_gen_run canon enc format token rows split g)
      as (out & g' & Hrun & Hids & Hall).
    exists out, g'. split; [done|]. split; [by apply Forall_forall|].
    split; [done|]. rewrite Hids. split; [apply kept_indices_sorted|].
    intros i j item_i item_j Hlt Hi Hki Hj Hkj. split; [|split].
    + rewrite elem_of_kept_indices. intros (item & Hi' & Hk). congruence.
    + rewrite elem_of_kept_indices. eauto.
    + rewrite <-(length_fmap Conv.id out), Hids. by eapply kept_indices_gap.
  - destruct (I2S_gen_run format token rows split g)
      as (out & g' & Hrun & Hids & Hall).
    exists out, g'. split; [done|]. split; [by apply Forall_forall|].
    split; [done|]. rewrite Hids. split; [apply kept_indices_sorted|].
    intros i j item_i item_j Hlt Hi Hki Hj Hkj. split; [|split].
    + rewrite elem_of_kept_indices. intros (item & Hi' & Hk). congruence.
    + rewrite elem_of_kept_indices. eauto.
    + rewrite <-(length_fmap Conv.id out), Hids. by eapply kept_indices_gap.
Qed.

(** C5. In both molecule pipelines a run over a split of [n] rows never
    raises.  If the assembly of row [i] raises (in whatever generator state),
    no record with id [i] is yielded and at most [n - 1] records come out;
    the run goes on: every row whose assembly does not raise, those after row
    [i] included, is yielded. *)
Theorem C5_skip_and_continue (canon enc : string → result string)
    (format : string) (token : bool) (rows : list row) (split : string) (g : rng) :
  (∃ out g',
     S2F.gen canon enc format token rows split g = (Ok out, g')
     ∧ length out ≤ length rows
     ∧ (∀ i item gi,
          rows !! i = Some item →
          is_ok (S2F.gen_body canon enc format token rows split i item gi).1 = false →
          (i ∉ (Conv.id <$> out)) ∧ length out ≤ length rows - 1)
     ∧ (∀ j item gj,
          rows !! j = Some item →
          is_ok (S2F.gen_body canon enc format token rows split j item gj).1 = true →
          j ∈ (Conv.id <$> out)))
  ∧ (∃ out g',
     I2S.gen format token rows split g = (Ok out, g')
     ∧ length out ≤ length rows
     ∧ (∀ i item gi,
          rows !! i = Some item →
          is_ok (I2S.gen_body format token rows split i item gi).1 = false →
          (i ∉ (Conv.id <$> out)) ∧ length out ≤ length rows - 1)
     ∧ (∀ j item gj,
          rows !! j = Some item →
          is_ok (I2S.gen_body format token rows split j item gj).1 = true →
          j ∈ (Conv.id <$> out))).
Proof.
  split.
  - destruct (S2F_gen_run canon enc format token rows split g)
      as (out & g' & Hrun & Hids & _).
    exists out, g'. split; [done|].
    assert (Hlen : length out = length (kept_indices (S2F_assembles canon enc format token split) rows))
      by (by rewrite <-Hids, length_fmap).
    rewrite Hids, Hlen. split; [apply kept_from_length|]. split.
    + intros i item gi Hrow Hraise. rewrite S2F_gen_body_ok in Hraise. split.
      * rewrite elem_of_kept_indices. intros (item' & Hrow' & Hk). congruence.
      * pose proof (kept_from_length_lt _ 0 rows i item Hrow Hraise).
        unfold kept_indices. lia.
    + intros j item gj Hrow Hok. rewrite S2F_gen_body_ok in Hok.
      rewrite elem_of_kept_indices. eauto.
  - destruct (I2S_gen_run format token rows split g)
      as (out & g' & Hrun & Hids & _).
    exists out, g'. split; [done|].
    assert (Hlen : length out = length (kept_indices (I2S_assembles split) rows))
      by (by rewrite <-Hids, length_fmap).
    rewrite Hids, Hlen. split; [apply kept_from_length|]. split.
    + intros i item gi Hrow Hraise. rewrite I2S_gen_body_ok in Hraise. split.
      * rewrite elem_of_kept_indices. intros (item' & Hrow' & Hk). congruence.
      * pose proof (kept_from_length_lt _ 0 rows i item Hrow Hraise).
        unfold kept_indices. lia.
    + intros j item gj Hrow Hok. rewrite I2S_gen_body_ok in Hok.
      rewrite elem_of_kept_indices. eauto.
Qed.

Lemma C9_ids_are_row_indices_witness :
  ∃ out g',
    S2F.gen sample_canon sample_encoder "smiles" true sample_rows "train" sample_tape
      = (Ok out, g')
    ∧ Conv.id <$> out = [0; 2]
    ∧ (1 ∉ (Conv.id <$> out)) ∧ 2 ∈ (Conv.id <$> out)
    ∧ Conv.id <$> out ≠ seq 0 (length out).
Proof.
  destruct (C9_ids_are_row_indices sample_canon sample_encoder "smiles" true
              sample_rows "train" sample_tape)
    as (_ & _ & (out & g' & Hrun & _ & Hids & _ & Hgap) & _).
  exists out, g'. split; [exact Hrun|]. split.
  - rewrite Hids. vm_compute. reflexivity.
  - apply (Hgap 1 2 {[ "input" := ""; "output" := "H2" ]}
             {[ "input" := "C"; "output" := "CH4" ]});
      [lia | vm_compute; reflexivity..].
Defined.

Lemma C5_skip_and_continue_witness :
  ∃ out g',
    I2S.gen "smiles" true sample_rows_missing "dev" sample_tape = (Ok out, g')
    ∧ length out ≤ 3
    ∧ (1 ∉ (Conv.id <$> out)) ∧ length out ≤ 3 - 1
    ∧ 2 ∈ (Conv.id <$> out).
Proof.
  destruct (C5_skip_and_continue sample_canon sample_encoder "smiles" true
              sample_rows_missing "dev" sample_tape)
    as [_ (out & g' & Hrun & Hlen & Hdrop & Hkeep)].
  exists out, g'. split; [exact Hrun|]. split; [exact Hlen|].
  destruct (Hdrop 1 {[ "input" := "methane" ]} sample_tape) as [Hnot Hless];
    [vm_compute; reflexivity..|].
  split; [exact Hnot|]. split; [exact Hless|].
  apply (Hkeep 2 {[ "input" := "water"; "output" := "O" ]} sample_tape);
    vm_compute; reflexivity.
Defined.

Lemma C4_turns_and_ground_truth_witness :
  ∃ out g',
    I2S.gen "smiles" true sample_rows_missing "test" sample_tape = (Ok out, g')
    ∧ Conv.ground_truth <$> out = ["CCO"; "O"]
    ∧ Forall (λ c, Conv.role <$> Conv.messages c = [ROLE_SYSTEM; ROLE_USER]) out.
Proof.
  destruct (C4_turns_and_ground_truth sample_canon sample_encoder "smiles" true
              sample_rows_missing "test" sample_tape)
    as (_ & _ & _ & _ & (out & g' & Hrun & Hall) & _).
  exists out, g'. split; [exact Hrun|]. split.
  - vm_compute in Hrun. injection Hrun as <- _. reflexivity.
  - eapply Forall_impl; [exact Hall|]. intros c [Hroles _]. exact Hroles.
Defined.

(** ** The worked example of the formula pipeline *)

(** C3. The record [{"input": "CCO", "output": "C2H6O"}], in format
    [smiles] with token mode on, when ["CCO"] is already canonical: the
    formula pipeline emits a record whose user message is a catalog
    template's input with [<INPUT>] replaced by the opaque token, whose
    assistant message is that template's output with [<OUTPUT>] replaced by
    ["C2H6O"], whose [molecules.smiles] is ["CCO"] and whose
    [molecules.selfies] is the SELFIES encoding of ["CCO"]; a train split
    holding only this row yields exactly this record, with id 0. *)
Theorem C3_ethanol_example (canon enc : string → result string)
    (selfies : string) (id : nat) (g : rng) :
  canon "CCO" = Ok "CCO" →
  enc "CCO" = Ok selfies →
  ∃ t, t ∈ S2F.PROMPT_TEMPLATES
    ∧ S2F.conversation_train canon enc id "CCO" "C2H6O" "smiles" true g
      = (Ok (Conv.mk id
               (Conv.mkMolecules (MolText selfies) (MolText "CCO"))
               "C2H6O"
               [ Conv.mkMessage ROLE_SYSTEM S2F.SYSTEM_PROMPT;
                 Conv.mkMessage ROLE_USER
                   (str_replace (Template.input t) "<INPUT>" "<molecule_2d>");
                 Conv.mkMessage ROLE_ASSISTANT
                   (str_replace (Template.output t) "<OUTPUT>" "C2H6O") ]),
         advance g)
    ∧ S2F.gen canon enc "smiles" true
        [ {[ "input" := "CCO"; "output" := "C2H6O" ]} ] "train" g
      = (Ok [ Conv.mk 0
                (Conv.mkMolecules (MolText selfies) (MolText "CCO"))
                "C2H6O"
                [ Conv.mkMessage ROLE_SYSTEM S2F.SYSTEM_PROMPT;
                  Conv.mkMessage ROLE_USER
                    (str_replace (Template.input t) "<INPUT>" "<molecule_2d>");
                  Conv.mkMessage ROLE_ASSISTANT
                    (str_replace (Template.output t) "<OUTPUT>" "C2H6O") ] ],
         advance g).
Proof.
  intros Hc He. exists (chosen_template S2F.PROMPT_TEMPLATES g).
  split; [apply S2F_chosen_in|].
  assert (Htrain : ∀ id', S2F.conversation_train canon enc id' "CCO" "C2H6O" "smiles" true g
      = (Ok (Conv.mk id'
               (Conv.mkMolecules (MolText selfies) (MolText "CCO"))
               "C2H6O"
               [ Conv.mkMessage ROLE_SYSTEM S2F.SYSTEM_PROMPT;
                 Conv.mkMessage ROLE_USER
                   (str_replace (Template.input (chosen_template S2F.PROMPT_TEMPLATES g))
                      "<INPUT>" "<molecule_2d>");
                 Conv.mkMessage ROLE_ASSISTANT
                   (str_replace (Template.output (chosen_template S2F.PROMPT_TEMPLATES g))
                      "<OUTPUT>" "C2H6O") ]),
         advance g)).
  { intros id'. rewrite S2F_conversation_train_eq.
    by rewrite (S2F_process_input_eq canon enc "CCO" "smiles" true "CCO" selfies Hc He). }
  split; [apply Htrain|].
  unfold S2F.gen. rewrite gen_loop_cons, S2F_gen_body_eq.
  change (known_split "train") with true.
  change (String.eqb "train" "test") with false.
  replace (({[ "input" := "CCO"; "output" := "C2H6O" ]} : row) !! "input")
    with (Some "CCO") by (by vm_compute).
  replace (({[ "input" := "CCO"; "output" := "C2H6O" ]} : row) !! "output")
    with (Some "C2H6O") by (by vm_compute).
  cbv iota beta. by rewrite Htrain.
Qed.

Lemma C3_ethanol_example_witness :
  sample_canon "CCO" = Ok "CCO"
  ∧ sample_encoder "CCO" = Ok "[C][C][O]"
  ∧ ∃ t, t ∈ S2F.PROMPT_TEMPLATES
    ∧ (S2F.conversation_train sample_canon sample_encoder 0 "CCO" "C2H6O" "smiles" true
         sample_tape).1
      = Ok (Conv.mk 0
              (Conv.mkMolecules (MolText "[C][C][O]") (MolText "CCO"))
              "C2H6O"
              [ Conv.mkMessage ROLE_SYSTEM S2F.SYSTEM_PROMPT;
                Conv.mkMessage ROLE_USER
                  (str_replace (Template.input t) "<INPUT>" "<molecule_2d>");
                Conv.mkMessage ROLE_ASSISTANT
                  (str_replace (Template.output t) "<OUTPUT>" "C2H6O") ]).
Proof.
  split; [reflexivity|]. split; [reflexivity|].
  destruct (C3_ethanol_example sample_canon sample_encoder "[C][C][O]" 0 sample_tape
              eq_refl eq_refl) as (t & Ht & Htrain & _).
  exists t. split; [exact Ht|]. rewrite Htrain. reflexivity.
Defined.

(** ** What the user prompt is made of *)

Section Prompts.

Variable canon enc : string → result string.

Lemma S2F_process_input_token input format selfies smiles molecule :
  S2F.process_input canon enc input format true = Ok (selfies, smiles, molecule) →
  molecule = S2F.MOLECULE_TOKEN.
Proof.
  unfold S2F.process_input, mbind, result_bind.
  destruct (canon input) as [smi|]; [|done].
  destruct (enc smi) as [sf|]; [|done].
  unfold mret, result_ret. by intros [= _ _ <-].
Qed.

Lemma S2F_token_prompt t :
  t ∈ S2F.PROMPT_TEMPLATES →
  str_in S2F.MOLECULE_TOKEN
    (str_replace (Template.input t) "<INPUT>" S2F.MOLECULE_TOKEN) = true.
Proof.
  intros Ht. apply list_elem_of_In in Ht. revert t Ht. apply forallb_forall.
  vm_compute. reflexivity.
Qed.

Lemma turns_user_record sys user rest :
  turns ROLE_USER
    (Conv.mkMessage ROLE_SYSTEM sys :: Conv.mkMessage ROLE_USER user
     :: match rest with
        | Some answer => [Conv.mkMessage ROLE_ASSISTANT answer]
        | None => []
        end) = [user].
Proof. by destruct rest. Qed.

Lemma S2F_user_prompt format token rows split id item g c g' :
  S2F.gen_body canon enc format token rows split id item g = (Ok c, g') →
  ∃ t input selfies smiles molecule,
    t ∈ S2F.PROMPT_TEMPLATES
    ∧ item !! "input" = Some input
    ∧ S2F.process_input canon enc input format token = Ok (selfies, smiles, molecule)
    ∧ turns ROLE_USER (Conv.messages c)
      = [str_replace (Template.input t) "<INPUT>" molecule].
Proof.
  intros Hb.
  apply S2F_gen_body_Ok in Hb as (input & output & sf & smi & mol & _ & Hin & _ & Hp & ->).
  exists (chosen_template S2F.PROMPT_TEMPLATES g), input, sf, smi, mol.
  split; [apply S2F_chosen_in|]. do 2 (split; [done|]).
  by destruct (String.eqb split "test").
Qed.

Lemma I2S_user_prompt format token rows split id item g c g' :
  I2S.gen_body format token rows split id item g = (Ok c, g') →
  ∃ t input,
    t ∈ I2S.PROMPT_TEMPLATES
    ∧ item !! "input" = Some input
    ∧ turns ROLE_USER (Conv.messages c)
      = [str_replace (Template.input t) "<INPUT>" input].
Proof.
  intros Hb.
  apply I2S_gen_body_Ok in Hb as (input & output & _ & Hin & _ & ->).
  exists (chosen_template I2S.PROMPT_TEMPLATES g), input.
  split; [apply I2S_chosen_in|]. split; [done|].
  by destruct (String.eqb split "test").
Qed.

End Prompts.

(** C1, as the claim states it, fails in both pipelines.  In the name
    pipeline a row processed with [token=True] gets a user prompt that holds
    the raw input text and no opaque token.  In the formula pipeline the
    prompt does hold the token, and yet the SMILES text of methane, [C],
    occurs in it: it occurs in the words of the template. *)
Lemma C1_counterexample :
  (∃ c,
     (I2S.gen "smiles" true [ {[ "input" := "ethanol"; "output" := "CCO" ]} ] "train"
        sample_tape).1 = Ok [c]
     ∧ turns ROLE_USER (Conv.messages c)
       = ["Convert the IUPAC name of a molecule ethanol into SMILES representation."]
     ∧ str_in I2S.MOLECULE_TOKEN
         "Convert the IUPAC name of a molecule ethanol into SMILES representation." = false
     ∧ str_in "ethanol"
         "Convert the IUPAC name of a molecule ethanol into SMILES representation." = true)
  ∧ (∃ c,
     (S2F.gen sample_canon sample_encoder "smiles" true
        [ {[ "input" := "C"; "output" := "CH4" ]} ] "train" sample_tape).1 = Ok [c]
     ∧ Conv.smiles (Conv.molecules c) = MolText "C"
     ∧ turns ROLE_USER (Conv.messages c)
       = ["Convert the representation of a molecule <molecule_2d> into molecular formula."]
     ∧ str_in "C"
         "Convert the representation of a molecule <molecule_2d> into molecular formula." = true).
Proof.
  split; eexists; (split; [vm_compute; reflexivity|]); repeat split; vm_compute; reflexivity.
Qed.

(** C1, amended.  In the formula pipeline every record emitted with
    [token=True] has as its user prompt a catalog template's input with
    [<INPUT>] replaced by the opaque token: the prompt contains the token and
    is one of the thirteen token-filled catalog texts, whatever the SMILES or
    SELFIES text of the molecule.  In the name pipeline the flag is not used:
    the user prompt is a catalog template's input with [<INPUT>] replaced by
    the raw input text of the row. *)
Theorem C1_token_mode_prompt (canon enc : string → result string)
    (format : string) (token : bool) (rows : list row) (split : string) (g : rng) :
  (∃ out g',
     S2F.gen canon enc format true rows split g = (Ok out, g')
     ∧ Forall (λ c, ∃ t,
         t ∈ S2F.PROMPT_TEMPLATES
         ∧ turns ROLE_USER (Conv.messages c)
           = [str_replace (Template.input t) "<INPUT>" S2F.MOLECULE_TOKEN]
         ∧ str_in S2F.MOLECULE_TOKEN
             (str_replace (Template.input t) "<INPUT>" S2F.MOLECULE_TOKEN) = true) out)
  ∧ (∃ out g',
     I2S.gen format token rows split g = (Ok out, g')
     ∧ Forall (λ c, ∃ t input,
         t ∈ I2S.PROMPT_TEMPLATES
         ∧ (rows !! Conv.id c) ≫= (.!! "input") = Some input
         ∧ turns ROLE_USER (Conv.messages c)
           = [str_replace (Template.input t) "<INPUT>" input]) out).
Proof.
  split.
  - destruct (S2F_gen_run canon enc format true rows split g)
      as (out & g' & Hrun & _ & Hall).
    exists out, g'. split; [done|]. apply Forall_forall. intros c Hc.
    destruct (Hall c Hc) as (item & gk & gk' & Hrow & Hb).
    apply S2F_user_prompt in Hb as (t & input & sf & smi & mol & Ht & _ & Hp & Hturn).
    apply S2F_process_input_token in Hp as ->.
    exists t. split; [done|]. split; [done|]. by apply S2F_token_prompt.
  - destruct (I2S_gen_run format token rows split g)
      as (out & g' & Hrun & _ & Hall).
    exists out, g'. split; [done|]. apply Forall_forall. intros c Hc.
    destruct (Hall c Hc) as (item & gk & gk' & Hrow & Hb).
    apply I2S_user_prompt in Hb as (t & input & Ht & Hin & Hturn).
    exists t, input. split; [done|]. split; [|done]. by rewrite Hrow.
Qed.

Lemma C1_token_mode_prompt_witness :
  ∃ out g',
    S2F.gen sample_canon sample_encoder "selfies" true sample_rows "test" sample_tape
      = (Ok out, g')
    ∧ length out = 2
    ∧ Forall (λ c, ∃ t,
        t ∈ S2F.PROMPT_TEMPLATES
        ∧ turns ROLE_USER (Conv.messages c)
          = [str_replace (Template.input t) "<INPUT>" "<molecule_2d>"]) out.
Proof.
  destruct (C1_token_mode_prompt sample_canon sample_encoder "selfies" true
              sample_rows "test" sample_tape)
    as [(out & g' & Hrun & Hall) _].
  exists out, g'. split; [exact Hrun|]. split.
  - vm_compute in Hrun. injection Hrun as <- _. reflexivity.
  - eapply Forall_impl; [exact Hall|]. intros c (t & Ht & Hturn & _). eauto.
Defined.

(** ** Placeholders in the emitted records *)

(** C2, as the claim states it, fails: [replace] fills the slot with the
    text of the row as it is.  A row of the name pipeline whose input is the
    text [<INPUT>] gets a user prompt that contains [<INPUT>]; a row of the
    formula pipeline whose output is the text [<OUTPUT>] gets an assistant
    message that contains [<OUTPUT>]. *)
Lemma C2_counterexample :
  (∃ c,
     (I2S.gen "smiles" true [ {[ "input" := "<INPUT>"; "output" := "CCO" ]} ] "train"
        sample_tape).1 = Ok [c]
     ∧ turns ROLE_USER (Conv.messages c)
       = ["Convert the IUPAC name of a molecule <INPUT> into SMILES representation."]
     ∧ str_in "<INPUT>"
         "Convert the IUPAC name of a molecule <INPUT> into SMILES representation." = true)
  ∧ (∃ c,
     (S2F.gen sample_canon sample_encoder "smiles" true
        [ {[ "input" := "CCO"; "output" := "<OUTPUT>" ]} ] "train" sample_tape).1 = Ok [c]
     ∧ turns ROLE_ASSISTANT (Conv.messages c) = ["<OUTPUT>"]
     ∧ str_in "<OUTPUT>" "<OUTPUT>" = true).
Proof.
  split; eexists; (split; [vm_compute; reflexivity|]); repeat split; vm_compute; reflexivity.
Qed.

(** C2, amended.  In both molecule pipelines, for every emitted record
    (train, dev or test): when neither [<INPUT>] nor [<OUTPUT>] occurs in the
    output text of its source row, nor in the text that fills its [<INPUT>]
    slot (the input text of the row in the name pipeline; the opaque token,
    the canonical SMILES or the SELFIES string in the formula pipeline), then
    neither occurs in any message content of the record.  The other rows of
    the split do not matter. *)
Theorem C2_placeholders_resolved (canon enc : string → result string)
    (format : string) (token : bool) (rows : list row) (split : string) (g : rng) :
  (∃ out g',
     S2F.gen canon enc format token rows split g = (Ok out, g')
     ∧ Forall (λ c, ∃ item input output selfies smiles molecule,
         rows !! Conv.id c = Some item
         ∧ item !! "input" = Some input
         ∧ item !! "output" = Some output
         ∧ S2F.process_input canon enc input format token = Ok (selfies, smiles, molecule)
         ∧ (placeholder_free output = true →
            placeholder_free molecule = true →
            Forall (λ m, placeholder_free (Conv.content m) = true) (Conv.messages c)))
       out)
  ∧ (∃ out g',
     I2S.gen format token rows split g = (Ok out, g')
     ∧ Forall (λ c, ∃ item input output,
         rows !! Conv.id c = Some item
         ∧ item !! "input" = Some input
         ∧ item !! "output" = Some output
         ∧ (placeholder_free output = true →
            placeholder_free input = true →
            Forall (λ m, placeholder_free (Conv.content m) = true) (Conv.messages c)))
       out).
Proof.
  split.
  - destruct (S2F_gen_run canon enc format token rows split g)
      as (out & g' & Hrun & _ & Hall).
    exists out, g'. split; [done|]. apply Forall_forall. intros c Hc.
    destruct (Hall c Hc) as (item & gk & gk' & Hrow & Hb).
    apply S2F_gen_body_Ok in Hb
      as (input & output & sf & smi & mol & _ & Hin & Hou & Hp & Hc_eq).
    exists item, input, output, sf, smi, mol. do 4 (split; [done|]).
    intros Hout Hmol. rewrite Hc_eq.
    pose proof (S2F_chosen_in gk) as Ht. cbn [Conv.messages].
    repeat apply Forall_cons_2; cbn [Conv.content].
    + done.
    + by rewrite (filled_input_free _ _ S2F_catalog_guarded S2F_catalog_slots).
    + destruct (String.eqb split "test"); [done|].
      apply Forall_cons_2; [cbn [Conv.content]|done].
      by rewrite (filled_output_free _ _ S2F_catalog_guarded S2F_catalog_slots).
  - destruct (I2S_gen_run format token rows split g)
      as (out & g' & Hrun & _ & Hall).
    exists out, g'. split; [done|]. apply Forall_forall. intros c Hc.
    destruct (Hall c Hc) as (item & gk & gk' & Hrow & Hb).
    apply I2S_gen_body_Ok in Hb as (input & output & _ & Hin & Hou & Hc_eq).
    exists item, input, output. do 3 (split; [done|]).
    intros Hout Hinp. rewrite Hc_eq.
    pose proof (I2S_chosen_in gk) as Ht. cbn [Conv.messages].
    repeat apply Forall_cons_2; cbn [Conv.content].
    + done.
    + by rewrite (filled_input_free _ _ I2S_catalog_guarded I2S_catalog_slots).
    + destruct (String.eqb split "test"); [done|].
      apply Forall_cons_2; [cbn [Conv.content]|done].
      by rewrite (filled_output_free _ _ I2S_catalog_guarded I2S_catalog_slots).
Qed.

Lemma C2_placeholders_resolved_witness :
  ∃ c0 c1 g',
    I2S.gen "smiles" true sample_rows_dirty "train" sample_tape = (Ok [c0; c1], g')
    ∧ Conv.id c1 = 1
    ∧ Forall (λ m, placeholder_free (Conv.content m) = true) (Conv.messages c1).
Proof.
  destruct (C2_placeholders_resolved sample_canon sample_encoder "smiles" true
              sample_rows_dirty "train" sample_tape)
    as [_ (out & g' & Hrun & Hall)].
  assert (Hlen : length out = 2).
  { vm_compute in Hrun. injection Hrun as <- _. reflexivity. }
  destruct out as [|c0 [|c1 [|c2 out]]]; try discriminate Hlen.
  assert (Hid : Conv.id c1 = 1).
  { vm_compute in Hrun. injection Hrun as _ <- _. reflexivity. }
  exists c0, c1, g'. split; [exact Hrun|]. split; [exact Hid|].
  apply Forall_cons_1 in Hall as [_ Hall]. apply Forall_cons_1 in Hall as [Hc1 _].
  destruct Hc1 as (item & input & output & Hrow & Hin & Hou & Hfree).
  rewrite Hid in Hrow. injection Hrow as <-.
  vm_compute in Hin. injection Hin as <-.
  vm_compute in Hou. injection Hou as <-.
  apply Hfree; reflexivity.
Defined.

(** ** Few-shot rendering *)

(** C6, as the claim states it, fails.  With an empty candidate pool and a
    positive count (the default, 5) the sampler raises, so that no prompt is
    rendered at all; and a prompt rendered without few-shot examples does
    contain the preamble text when the text of the row itself contains it. *)
Lemma C6_counterexample :
  (generate_few_shot_examples [] (Some 5) sample_tape).1
    = Raise (ValueError "Sample larger than population or is negative")
  ∧ ((few_shots ← generate_few_shot_examples [] (Some 5);
      I2S.conversation_test 0 "ethanol" "CCO" few_shots "smiles" true) sample_tape).1
    = Raise (ValueError "Sample larger than population or is negative")
  ∧ (∃ c,
      (I2S.conversation_test 0 "Here are some examples of name conversion." "C"
         None "smiles" true sample_tape).1 = Ok c
      ∧ turns ROLE_USER (Conv.messages c)
        = ["Convert the IUPAC name of a molecule Here are some examples of name conversion. into SMILES representation."]
      ∧ str_in I2S.FEW_SHOT_PROMPT
          "Convert the IUPAC name of a molecule Here are some examples of name conversion. into SMILES representation."
        = true).
Proof.
  split; [vm_compute; reflexivity|]. split; [vm_compute; reflexivity|].
  eexists. split; [vm_compute; reflexivity|]. split; vm_compute; reflexivity.
Qed.

(** C6, amended.  With a few-shot count of zero or [None], whatever the
    pool, the sampler returns [None]; with [None] or an empty list of
    few-shot examples, the test assembler of either pipeline returns what it
    returns without few-shot examples: the user prompt is the template's
    input with [<INPUT>] filled, nothing is put before it, and the few-shot
    preamble occurs in it only if it occurs in the text that fills the slot.
    (With an empty pool and a positive count the sampler raises.) *)
Theorem C6_no_few_shot_block (canon enc : string → result string)
    (pool : list row) (num_examples : option nat) (few_shots : option (list row))
    (id : nat) (input output format : string) (token : bool) (g : rng) :
  falsy_int num_examples = true →
  falsy_list few_shots = true →
  generate_few_shot_examples pool num_examples g = (Ok None, g)
  ∧ (few ← generate_few_shot_examples pool num_examples;
     I2S.conversation_test id input output few format token) g
    = I2S.conversation_test id input output None format token g
  ∧ (few ← generate_few_shot_examples pool num_examples;
     S2F.conversation_test canon enc id input output few format token) g
    = S2F.conversation_test canon enc id input output None format token g
  ∧ I2S.conversation_test id input output few_shots format token g
    = I2S.conversation_test id input output None format token g
  ∧ S2F.conversation_test canon enc id input output few_shots format token g
    = S2F.conversation_test canon enc id input output None format token g
  ∧ (∃ t c,
       t ∈ I2S.PROMPT_TEMPLATES
       ∧ I2S.conversation_test id input output few_shots format token g = (Ok c, advance g)
       ∧ turns ROLE_USER (Conv.messages c)
         = [str_replace (Template.input t) "<INPUT>" input]
       ∧ str_in I2S.FEW_SHOT_PROMPT (str_replace (Template.input t) "<INPUT>" input)
         = str_in I2S.FEW_SHOT_PROMPT input)
  ∧ match S2F.process_input canon enc input format token with
    | Ok (_, _, molecule) =>
        ∃ t c,
          t ∈ S2F.PROMPT_TEMPLATES
          ∧ S2F.conversation_test canon enc id input output few_shots format token g
            = (Ok c, advance g)
          ∧ turns ROLE_USER (Conv.messages c)
            = [str_replace (Template.input t) "<INPUT>" molecule]
          ∧ str_in S2F.FEW_SHOT_PROMPT (str_replace (Template.input t) "<INPUT>" molecule)
            = str_in S2F.FEW_SHOT_PROMPT molecule
    | Raise e =>
        S2F.conversation_test canon enc id input output few_shots format token g
        = (Raise e, g)
    end.
Proof.
  intros Hn Hfew.
  pose proof (generate_few_shot_examples_falsy pool num_examples g Hn) as Hgen.
  split; [done|].
  split; [unfold mbind at 1, M_bind; by rewrite Hgen|].
  split; [unfold mbind at 1, M_bind; by rewrite Hgen|].
  split; [by rewrite !I2S_conversation_test_eq|].
  split; [by rewrite !S2F_conversation_test_eq|].
  split.
  - eexists (chosen_template I2S.PROMPT_TEMPLATES g), _.
    pose proof (I2S_chosen_in g) as Ht.
    split; [done|]. split; [by apply I2S_conversation_test_eq|]. split; [done|].
    by apply (filled_input_in _ _ I2S_catalog_guarded I2S_catalog_slots).
  - rewrite S2F_conversation_test_eq by done.
    destruct (S2F.process_input _ _ _ _ _) as [[[sf smi] mol]|e]; [|done].
    eexists (chosen_template S2F.PROMPT_TEMPLATES g), _.
    pose proof (S2F_chosen_in g) as Ht.
    split; [done|]. split; [done|]. split; [done|].
    by apply (filled_input_in _ _ S2F_catalog_guarded S2F_catalog_slots).
Qed.

Lemma C6_no_few_shot_block_witness :
  falsy_int (Some 0) = true
  ∧ falsy_list (Some ([] : list row)) = true
  ∧ (few ← generate_few_shot_examples sample_rows (Some 0);
     I2S.conversation_test 0 "ethanol" "CCO" few "smiles" true) sample_tape
    = I2S.conversation_test 0 "ethanol" "CCO" None "smiles" true sample_tape
  ∧ I2S.conversation_test 0 "ethanol" "CCO" (Some []) "smiles" true sample_tape
    = I2S.conversation_test 0 "ethanol" "CCO" None "smiles" true sample_tape.
Proof.
  split; [reflexivity|]. split; [reflexivity|].
  destruct (C6_no_few_shot_block sample_canon sample_encoder sample_rows (Some 0)
              (Some []) 0 "ethanol" "CCO" "smiles" true sample_tape eq_refl eq_refl)
    as (_ & Hgen & _ & Hempty & _).
  split; [exact Hgen | exact Hempty].
Defined.

(** ** Counting the image tokens *)

Section Counting.

Lemma str_app_assoc (a b c : string) : (a +:+ b) +:+ c = a +:+ (b +:+ c).
Proof. induction a as [|x a IH]; [done|]. by rewrite !app_String, IH. Qed.

Lemma str_app_nil_r (a : string) : a +:+ "" = a.
Proof. induction a as [|x a IH]; [done|]. by rewrite app_String, IH. Qed.

Lemma count_from_String sub c s :
  count_from sub 0 (String c s) =
  if startswith (String c s) sub
  then S (count_from sub (String.length sub - 1) s)
  else count_from sub 0 s.
Proof. reflexivity. Qed.

Lemma count_from_absent sub s :
  str_in sub s = false → count_from sub 0 s = 0.
Proof.
  induction s as [|c s IH]; [done|].
  rewrite str_in_String, orb_false_iff. intros [Hhead Htail].
  by rewrite count_from_String, Hhead, IH.
Qed.

(** A text without occurrence, put before [post], adds none when no
    occurrence can run over the seam. *)
Lemma count_from_app_absent sub m post :
  str_in sub m = false →
  overlaps_end sub post = false →
  count_from sub 0 (m +:+ post) = count_from sub 0 post.
Proof.
  intros Hm Hov. induction m as [|c m IH]; [done|].
  rewrite str_in_String, orb_false_iff in Hm. destruct Hm as [Hhead Htail].
  rewrite app_String, count_from_String, <-app_String.
  by rewrite startswith_local, Hhead, IH.
Qed.

Lemma count_image_token x :
  count_from "<image>" 0 ("<image>" +:+ x) = S (count_from "<image>" 0 x).
Proof. reflexivity. Qed.

Lemma count_image_tokens k x :
  count_from "<image>" 0 (str_mul "<image>" k +:+ x) = k + count_from "<image>" 0 x.
Proof.
  induction k as [|k IH]; [done|].
  cbn [str_mul]. by rewrite str_app_assoc, count_image_token, IH.
Qed.

Lemma count_tokens_front k q0 :
  str_in "<image>" q0 = false →
  str_count (str_mul "<image>" k +:+ " " +:+ q0) "<image>" = k.
Proof.
  intros Hq. unfold str_count. rewrite count_image_tokens.
  change (count_from "<image>" 0 (" " +:+ q0)) with (count_from "<image>" 0 q0).
  rewrite count_from_absent by done. lia.
Qed.

Lemma count_tokens_back k q0 :
  str_in "<image>" q0 = false →
  str_count (q0 +:+ " " +:+ str_mul "<image>" k) "<image>" = k.
Proof.
  intros Hq. unfold str_count.
  rewrite count_from_app_absent by done.
  change (count_from "<image>" 0 (" " +:+ str_mul "<image>" k))
    with (count_from "<image>" 0 (str_mul "<image>" k)).
  rewrite <-(str_app_nil_r (str_mul "<image>" k)), count_image_tokens.
  simpl. lia.
Qed.

End Counting.

(** ** The multi-image record *)

Section MultiImage.

Variable openai_Client : result unit.
Variable create_chat : string → result (gmap string string).

Lemma traverse_Ok {A B} (f : A → result B) l ys :
  traverse f l = Ok ys → Forall2 (λ x y, f x = Ok y) l ys.
Proof.
  revert ys. induction l as [|x l IH]; intros ys.
  - intros [= <-]. constructor.
  - simpl. unfold mbind, result_bind.
    destruct (f x) as [y|] eqn:Hfx; [|done].
    destruct (traverse f l) as [ys'|]; [|done].
    intros [= <-]. constructor; [done|]. by apply IH.
Qed.

Lemma list_getitem_Ok {A} (l : list A) i x :
  list_getitem l i = Ok x → l !! i = Some x.
Proof. unfold list_getitem. destruct (l !! i); simpl; congruence. Qed.

Lemma getitem_Ok d key v : getitem d key = Ok v → d !! key = Some v.
Proof. unfold getitem. destruct (d !! key); simpl; congruence. Qed.

(** What a successful synthesis returns. *)
Lemma build_convo_Ok exs g ex g' :
  Llava._build_convo openai_Client create_chat exs g = (Ok ex, g') →
  ∃ captions paths prompt resp q0 a (front : bool),
    traverse (λ e, m ← list_getitem (Llava.Pretrain.messages e) 1; getitem m "content")
      exs = Ok captions
    ∧ traverse (λ e, list_getitem (Llava.Pretrain.images e) 0) exs = Ok paths
    ∧ create_chat prompt = Ok resp
    ∧ resp !! "question" = Some q0
    ∧ resp !! "answer" = Some a
    ∧ ex = Llava.Example.mk paths
             [ Conv.mkMessage ROLE_USER
                 (if front
                  then str_mul Llava.IMAGE_TOKEN (length captions) +:+ " " +:+ q0
                  else q0 +:+ " " +:+ str_mul Llava.IMAGE_TOKEN (length captions));
               Conv.mkMessage ROLE_ASSISTANT a ].
Proof.
  unfold Llava._build_convo. intros Hrun.
  apply bind_Ok in Hrun as (_ & g1 & _ & Hrun).
  apply bind_Ok in Hrun as (captions & g2 & [Hcap _]%lift_Ok & Hrun).
  apply bind_Ok in Hrun as (paths & g3 & [Hpaths _]%lift_Ok & Hrun).
  apply bind_Ok in Hrun as (question & g4 & _ & Hrun).
  apply bind_Ok in Hrun as (resp & g5 & [Hresp _]%lift_Ok & Hrun).
  apply bind_Ok in Hrun as (q0 & g6 & [Hq _]%lift_Ok & Hrun).
  apply bind_Ok in Hrun as (a & g7 & [Ha _]%lift_Ok & Hrun).
  apply bind_Ok in Hrun as (front & g8 & _ & Hrun).
  injection Hrun as <- _.
  eexists captions, paths, _, resp, q0, a, front.
  repeat split; try done; by apply getitem_Ok.
Qed.

(** A round of [gen] that yields a record builds it from the rows of the
    data at the sampled indices, taken in the order of the sample. *)
Lemma gen_round_Ok data max_images g ex g' :
  Llava.gen_round openai_Client create_chat data max_images g = (Ok (Some ex), g') →
  ∃ idxs exs gk,
    Forall2 (λ i e, data !! i = Some e) idxs exs
    ∧ Llava._build_convo openai_Client create_chat exs gk = (Ok ex, g')
    ∧ Forall2 (λ i path, ∃ e, data !! i = Some e ∧ Llava.Pretrain.images e !! 0 = Some path)
        idxs (Llava.Example.images ex).
Proof.
  unfold Llava.gen_round. intros Hrun.
  apply bind_Ok in Hrun as (k & g1 & _ & Hrun).
  apply bind_Ok in Hrun as (idxs & g2 & _ & Hrun).
  apply bind_Ok in Hrun as (exs & g3 & [Hexs _]%lift_Ok & Hrun).
  unfold try_except in Hrun.
  destruct (Llava._build_convo _ _ exs g3) as [[ex'|e] g4] eqn:Hbuild; [|done].
  injection Hrun as <- <-.
  apply traverse_Ok in Hexs.
  assert (Hidx : Forall2 (λ i e, data !! i = Some e) idxs exs).
  { eapply Forall2_impl; [exact Hexs|]. intros i e. apply list_getitem_Ok. }
  exists idxs, exs, g3. split; [done|]. split; [done|].
  apply build_convo_Ok in Hbuild
    as (captions & paths & prompt & resp & q0 & a & front & _ & Hpaths & _ & _ & _ & ->).
  apply traverse_Ok in Hpaths. cbn [Llava.Example.images].
  clear Hexs. revert paths Hpaths.
  induction Hidx as [|i e idxs exs Hi Hrest IH]; intros paths Hpaths.
  - apply Forall2_nil_inv_l in Hpaths as ->. constructor.
  - apply Forall2_cons_inv_l in Hpaths as (p & paths' & Hp & Hps & ->).
    constructor; [|by apply IH].
    exists e. split; [done|]. by apply list_getitem_Ok.
Qed.

End MultiImage.

(** C8. A successful multi-image synthesis over [k] caption/image pairs
    returns a record whose [images] are the first image paths of the [k]
    pairs, in their order, and whose user message is the question of the
    service with the [k] image tokens, contiguous, either put before it (and
    a space) or after it (and a space); when the question of the service does
    not contain the image token, the user message counts exactly [k] of
    them. *)
Theorem C8_multi_image_record (openai_Client : result unit)
    (create_chat : string → result (gmap string string))
    (pretrain_examples : list Llava.Pretrain.t) (g : rng)
    (example : Llava.Example.t) (g' : rng) :
  Llava._build_convo openai_Client create_chat pretrain_examples g = (Ok example, g') →
  let k := length pretrain_examples in
  length (Llava.Example.images example) = k
  ∧ Forall2 (λ e path, Llava.Pretrain.images e !! 0 = Some path)
      pretrain_examples (Llava.Example.images example)
  ∧ ∃ prompt resp q0 a q,
      create_chat prompt = Ok resp
      ∧ resp !! "question" = Some q0
      ∧ resp !! "answer" = Some a
      ∧ Llava.Example.messages example
        = [Conv.mkMessage ROLE_USER q; Conv.mkMessage ROLE_ASSISTANT a]
      ∧ (q = str_mul "<image>" k +:+ " " +:+ q0 ∨ q = q0 +:+ " " +:+ str_mul "<image>" k)
      ∧ (str_in "<image>" q0 = false → str_count q "<image>" = k).
Proof.
  intros Hrun k.
  apply build_convo_Ok in Hrun
    as (captions & paths & prompt & resp & q0 & a & front
        & Hcap & Hpaths & Hresp & Hq & Ha & ->).
  apply traverse_Ok in Hcap, Hpaths.
  assert (Hk : length captions = k) by (symmetry; by eapply Forall2_length).
  cbn [Llava.Example.images Llava.Example.messages]. rewrite Hk.
  split; [symmetry; by eapply Forall2_length|]. split.
  { eapply Forall2_impl; [exact Hpaths|]. intros e p. apply list_getitem_Ok. }
  eexists prompt, resp, q0, a, _. do 4 (split; [done|]).
  destruct front; (split; [auto|]); intros Hfree.
  - by apply count_tokens_front.
  - by apply count_tokens_back.
Qed.

Lemma C8_multi_image_record_witness :
  ∃ example,
    (Llava._build_convo (Ok ()) sample_service sample_pretrain sample_tape).1 = Ok example
    ∧ Llava.Example.images example = ["cat.jpg"; "dog.jpg"]
    ∧ ∃ q a,
        Llava.Example.messages example
        = [Conv.mkMessage ROLE_USER q; Conv.mkMessage ROLE_ASSISTANT a]
        ∧ str_count q "<image>" = 2.
Proof.
  destruct (Llava._build_convo (Ok ()) sample_service sample_pretrain sample_tape)
    as [[example|e] g'] eqn:Hrun; [|vm_compute in Hrun; discriminate Hrun].
  exists example. split; [reflexivity|].
  destruct (C8_multi_image_record (Ok ()) sample_service sample_pretrain sample_tape
              example g' Hrun)
    as (_ & _ & prompt & resp & q0 & a & q & Hresp & Hq0 & Ha & Hmsgs & _ & Hcount).
  split; [vm_compute in Hrun; injection Hrun as <- _; reflexivity|].
  exists q, a. split; [exact Hmsgs|]. apply Hcount.
  injection Hresp as <-. vm_compute in Hq0. injection Hq0 as <-. reflexivity.
Defined.

(** ** More on the generator loop *)

Section LoopMore.

Lemma gen_loop_ext (body1 body2 : nat → row → M Conv.t) id items g :
  (∀ j item gj, body1 j item gj = body2 j item gj) →
  gen_loop body1 id items g = gen_loop body2 id items g.
Proof.
  intros Hext. revert id g. induction items as [|item rest IH]; intros id g; [done|].
  rewrite !gen_loop_cons, Hext. destruct (body2 id item g) as [r g1]. by rewrite IH.
Qed.

Lemma gen_loop_all_raise (body : nat → row → M Conv.t) id items g :
  (∀ j item gj, ∃ e, body j item gj = (Raise e, gj)) →
  gen_loop body id items g = (Ok [], g).
Proof.
  intros Hraise. revert id. induction items as [|item rest IH]; intros id; [done|].
  rewrite gen_loop_cons. destruct (Hraise id item g) as [e ->]. by rewrite IH.
Qed.

(** When a body that returns has drawn once and a body that raises has not
    drawn, the loop leaves the tape advanced by the number of records. *)
Lemma gen_loop_state (body : nat → row → M Conv.t) id items g out g' :
  (∀ j item gj, (∃ c, body j item gj = (Ok c, advance gj))
                ∨ (∃ e, body j item gj = (Raise e, gj))) →
  gen_loop body id items g = (Ok out, g') →
  ∀ i, g' i = g (length out + i).
Proof.
  intros Hbody. revert id g out g'.
  induction items as [|item rest IH]; intros id g out g'.
  - by intros [= <- <-].
  - rewrite gen_loop_cons.
    destruct (Hbody id item g) as [[c ->] | [e ->]];
      destruct (gen_loop body (S id) rest _) as [[out1|e1] g2] eqn:Hrest; try done;
      intros [= <- <-] i; rewrite (IH _ _ _ _ Hrest i); done.
Qed.

Lemma kept_from_all keep start rows :
  Forall (λ item, keep item = true) rows →
  kept_from start keep rows = seq start (length rows).
Proof.
  intros Hall. revert start. induction Hall as [|item rest Hk _ IH]; intros start; [done|].
  rewrite kept_from_cons, Hk, IH. done.
Qed.

Lemma kept_from_none keep start rows :
  Forall (λ item, keep item = false) rows →
  kept_from start keep rows = [].
Proof.
  intros Hall. revert start. induction Hall as [|item rest Hk _ IH]; intros start; [done|].
  by rewrite kept_from_cons, Hk, IH.
Qed.

End LoopMore.

Section BodiesMore.

Variable canon enc : string → result string.
Variable format : string.
Variable token : bool.

Lemma S2F_gen_body_cases pool split id item g :
  (∃ c, S2F.gen_body canon enc format token pool split id item g = (Ok c, advance g))
  ∨ (∃ e, S2F.gen_body canon enc format token pool split id item g = (Raise e, g)).
Proof.
  rewrite S2F_gen_body_eq. destruct (known_split split); [|eauto].
  destruct (item !! "input") as [input|]; [|eauto].
  destruct (item !! "output") as [output|]; [|eauto].
  rewrite S2F_conversation_train_eq, S2F_conversation_test_eq by done.
  destruct (S2F.process_input _ _ _ _ _) as [[[sf smi] mol]|e];
    destruct (String.eqb split "test"); eauto.
Qed.

Lemma I2S_gen_body_cases pool split id item g :
  (∃ c, I2S.gen_body format token pool split id item g = (Ok c, advance g))
  ∨ (∃ e, I2S.gen_body format token pool split id item g = (Raise e, g)).
Proof.
  rewrite I2S_gen_body_eq. destruct (known_split split); [|eauto].
  destruct (item !! "input") as [input|]; [|eauto].
  destruct (item !! "output") as [output|]; [|eauto].
  rewrite I2S_conversation_train_eq, I2S_conversation_test_eq by done.
  destruct (String.eqb split "test"); eauto.
Qed.

Lemma S2F_process_input_Ok input selfies smiles molecule :
  S2F.process_input canon enc input format token = Ok (selfies, smiles, molecule) →
  canon input = Ok smiles ∧ enc smiles = Ok selfies
  ∧ molecule = (if token then S2F.MOLECULE_TOKEN
                else if String.eqb format "smiles" then smiles else selfies).
Proof.
  unfold S2F.process_input, mbind, result_bind, mret, result_ret.
  destruct (canon input) as [smi|]; [|done].
  destruct (enc smi) as [sf|] eqn:Henc; [|done].
  destruct token; [by intros [= <- <- <-]|].
  destruct (String.eqb format "smiles"); [by intros [= <- <- <-]|].
  destruct (String.eqb format "selfies"); [by intros [= <- <- <-]|done].
Qed.

End BodiesMore.

Section LoopOrder.

(** When the body raises on no row of the split, the records come out one
    per row, in the order of the rows. *)
Lemma gen_loop_Forall2 (body : nat → row → M Conv.t) (R : row → Conv.t → Prop)
    id items g out g' :
  (∀ j item gj c gj', body j item gj = (Ok c, gj') → R item c) →
  Forall (λ item, ∀ j gj, is_ok (body j item gj).1 = true) items →
  gen_loop body id items g = (Ok out, g') →
  Forall2 R items out.
Proof.
  intros HR Hok. revert id g out g'.
  induction Hok as [|item rest Hitem _ IH]; intros id g out g'.
  - intros [= <- _]. constructor.
  - rewrite gen_loop_cons. specialize (Hitem id g).
    destruct (body id item g) as [[c|e] g1] eqn:Hbody; [|done].
    destruct (gen_loop body (S id) rest g1) as [[out1|e1] g2] eqn:Hrest; [|done].
    intros [= <- _]. constructor; [by eapply HR | by eapply IH].
Qed.

Lemma startswith_self_app m x : startswith (m +:+ x) m = true.
Proof.
  induction m as [|c m IH]; [by destruct x|].
  rewrite app_String. simpl. by rewrite decide_True.
Qed.

Lemma str_in_mid m pre post : str_in m (pre +:+ m +:+ post) = true.
Proof.
  induction pre as [|c pre IH].
  - change ("" +:+ m +:+ post) with (m +:+ post).
    destruct m as [|a m]; [by destruct post|].
    rewrite app_String, str_in_String, <-app_String.
    by rewrite startswith_self_app.
  - rewrite app_String, str_in_String, IH. apply orb_true_r.
Qed.

Lemma S2F_filled_contains t m :
  t ∈ S2F.PROMPT_TEMPLATES →
  str_in m (str_replace (Template.input t) "<INPUT>" m) = true
  ∧ str_in m (str_replace (Template.output t) "<OUTPUT>" m) = true.
Proof.
  intros Ht. destruct (S2F_catalog_slots t m Ht) as [-> ->].
  split; apply str_in_mid.
Qed.

Lemma I2S_filled_contains t m :
  t ∈ I2S.PROMPT_TEMPLATES →
  str_in m (str_replace (Template.input t) "<INPUT>" m) = true
  ∧ str_in m (str_replace (Template.output t) "<OUTPUT>" m) = true.
Proof.
  intros Ht. destruct (I2S_catalog_slots t m Ht) as [-> ->].
  split; apply str_in_mid.
Qed.

End LoopOrder.

Section FewShotLines.

Lemma enumerate_from_lookup {A} (start : nat) (l : list A) k :
  enumerate_from start l !! k = (λ x, (start + k, x)) <$> l !! k.
Proof.
  revert start k. induction l as [|x l IH]; intros start k; [done|].
  destruct k as [|k]; simpl.
  - by rewrite Nat.add_0_r.
  - rewrite IH. by replace (S start + k) with (start + S k) by lia.
Qed.

Lemma enumerate_from_length {A} (start : nat) (l : list A) :
  length (enumerate_from start l) = length l.
Proof. revert start. induction l as [|x l IH]; intros start; simpl; [done|]. by rewrite IH. Qed.

(** When every example has both fields, the few-shot lines are rendered, one
    per example. *)
Lemma few_shot_lines_Ok start (few_shots : list row) :
  Forall (λ ex, is_Some (ex !! "input") ∧ is_Some (ex !! "output")) few_shots →
  ∃ lines,
    traverse few_shot_line (enumerate_from start few_shots) = Ok lines
    ∧ Forall2 (λ p line, few_shot_line p = Ok line) (enumerate_from start few_shots) lines.
Proof.
  intros Hall. revert start. induction Hall as [|ex rest [[inp Hi] [out Ho]] _ IH];
    intros start.
  - exists []. split; [done|constructor].
  - destruct (IH (S start)) as (lines & Hlines & Hrel).
    assert (Hline : few_shot_line (start, ex)
              = Ok ("Few-shot example " +:+ str_of_nat (start + 1) +:+ ": " +:+ inp
                      +:+ " -> " +:+ out)).
    { unfold few_shot_line, getitem. by rewrite Hi, Ho. }
    eexists. split.
    + cbn [enumerate_from traverse]. unfold mbind, result_bind.
      by rewrite Hline, Hlines.
    + by constructor.
Qed.

(** When some example lacks a field, rendering the lines raises the
    [KeyError] of a missing field. *)
Lemma few_shot_lines_Raise start (few_shots : list row) :
  Exists (λ ex, ex !! "input" = None ∨ ex !! "output" = None) few_shots →
  ∃ key,
    (key = "input" ∨ key = "output")
    ∧ traverse few_shot_line (enumerate_from start few_shots) = Raise (KeyError key).
Proof.
  intros Hex. revert start. induction few_shots as [|ex rest IH]; intros start.
  - by apply Exists_nil in Hex.
  - cbn [enumerate_from traverse]. unfold mbind, result_bind.
    unfold few_shot_line at 1. unfold getitem at 1 2.
    destruct (ex !! "input") as [inp|] eqn:Hi; [|exists "input"; eauto].
    destruct (ex !! "output") as [out|] eqn:Ho; [|exists "output"; eauto].
    simpl. apply Exists_cons in Hex as [[?|?]|Hrest]; [congruence..|].
    destruct (IH Hrest (S start)) as (key & Hkey & ->). eauto.
Qed.

End FewShotLines.

(** ** Sampling *)

Section Sampling.

Context {A : Type}.

(** One step of the pool algorithm: the element drawn, put before the pool
    it leaves, is the pool it was drawn from, up to the order. *)
Lemma pool_step_Permutation (pool : list A) j x y :
  pool !! j = Some x →
  last pool = Some y →
  x :: take (length pool - 1) (<[j:=y]> pool) ≡ₚ pool.
Proof.
  intros Hj Hlast. apply last_Some in Hlast as [init ->].
  rewrite length_app. simpl. replace (length init + 1 - 1) with (length init) by lia.
  destruct (decide (j < length init)) as [Hlt|Hge].
  - rewrite lookup_app_l in Hj by done.
    rewrite insert_app_l by done.
    rewrite take_app_length' by (by rewrite length_insert).
    rewrite insert_take_drop by done.
    rewrite <-(take_drop_middle init j x Hj) at 3.
    rewrite <-!app_assoc. simpl.
    rewrite (Permutation_middle (take j init) _ x).
    apply Permutation_app_head.
    rewrite (Permutation_app_comm (x :: drop (S j) init) [y]). simpl.
    apply perm_swap.
  - assert (j = length init) as ->.
    { apply lookup_lt_Some in Hj. rewrite length_app in Hj. simpl in Hj. lia. }
    rewrite list_lookup_middle in Hj by done. injection Hj as <-.
    rewrite list_insert_id by (by apply list_lookup_middle).
    rewrite take_app_length. apply Permutation_cons_append.
Qed.

(** [k] draws from a pool that holds at least [k] elements return [k]
    elements of the pool, none used more often than the pool holds it. *)
Lemma sample_pool_spec (pool : list A) k g :
  k ≤ length pool →
  ∃ l g',
    sample_pool pool k g = (Ok l, g')
    ∧ length l = k
    ∧ l ⊆+ pool
    ∧ ∀ i, g' i = g (k + i).
Proof.
  revert pool g. induction k as [|k IH]; intros pool g Hk.
  - exists [], g. split; [done|]. split; [done|]. split; [apply submseteq_nil_l|done].
  - assert (Hlt : g 0 `mod` length pool < length pool).
    { apply Nat.mod_upper_bound. lia. }
    destruct (lookup_lt_is_Some_2 pool _ Hlt) as [x Hx].
    assert (Hlast : is_Some (last pool)).
    { rewrite last_lookup. apply lookup_lt_is_Some_2. lia. }
    destruct Hlast as [y Hy].
    pose proof (pool_step_Permutation pool _ x y Hx Hy) as Hperm.
    destruct (IH (take (length pool - 1) (<[g 0 `mod` length pool:=y]> pool)) (advance g))
      as (l & g' & Hrun & Hlen & Hsub & Hstate).
    { rewrite length_take, length_insert. lia. }
    exists (x :: l), g'. split.
    { cbn [sample_pool]. unfold mbind at 1, M_bind, randbelow.
      fold (advance g). rewrite Hx, Hy.
      unfold mbind, M_bind. by rewrite Hrun. }
    split; [simpl; by rewrite Hlen|]. split.
    + rewrite <-Hperm. by apply submseteq_skip.
    + intros i. by rewrite Hstate.
Qed.

Lemma random_sample_spec (population : list A) k g :
  k ≤ length population →
  ∃ l g',
    random_sample population k g = (Ok l, g')
    ∧ length l = k
    ∧ l ⊆+ population
    ∧ ∀ i, g' i = g (k + i).
Proof.
  intros Hk. unfold random_sample. rewrite decide_True by done.
  by apply sample_pool_spec.
Qed.

Lemma random_sample_too_large (population : list A) k g :
  length population < k →
  random_sample population k g
  = (Raise (ValueError "Sample larger than population or is negative"), g).
Proof.
  intros Hk. unfold random_sample. rewrite decide_False by lia. done.
Qed.

Lemma draw_keys_spec (l : list A) g :
  ∃ keyed g',
    draw_keys l g = (Ok keyed, g')
    ∧ keyed.*2 = l
    ∧ ∀ i, g' i = g (length l + i).
Proof.
  revert g. induction l as [|x l IH]; intros g.
  - by exists [], g.
  - destruct (IH (advance g)) as (keyed & g' & Hrun & Hsnd & Hstate).
    exists ((g 0, x) :: keyed), g'. split.
    { cbn [draw_keys]. unfold mbind at 1, M_bind, random_random.
      fold (advance g). unfold mbind, M_bind. by rewrite Hrun. }
    split; [by rewrite fmap_cons, Hsnd|].
    intros i. by rewrite Hstate.
Qed.

Lemma insert_by_key_Permutation (p : nat * A) l : insert_by_key p l ≡ₚ p :: l.
Proof.
  induction l as [|q l IH]; [done|]. simpl.
  case_decide; [|done]. rewrite IH. apply perm_swap.
Qed.

Lemma sorted_by_random_key_spec (l : list A) g :
  ∃ l' g',
    sorted_by_random_key l g = (Ok l', g')
    ∧ l' ≡ₚ l
    ∧ ∀ i, g' i = g (length l + i).
Proof.
  destruct (draw_keys_spec l g) as (keyed & g' & Hrun & Hsnd & Hstate).
  exists ((foldr insert_by_key [] keyed).*2), g'. split.
  { unfold sorted_by_random_key, mbind, M_bind. by rewrite Hrun. }
  split; [|done]. rewrite <-Hsnd. apply fmap_Permutation.
  clear. induction keyed as [|p keyed IH]; [done|].
  simpl. by rewrite insert_by_key_Permutation, IH.
Qed.

End Sampling.

(** ** Further properties of the molecule pipelines *)

(** X1. [gen(split)] looks [dataset[split]] up before its loop and outside
    its [try]: with a split name other than ["train"], ["dev"] and ["test"]
    it raises [KeyError], before any row is read and before anything is
    drawn; with one of the three names it runs over the rows of that split
    and returns a list.  So [gen] raises exactly on unknown split names, in
    both pipelines. *)
Theorem X1_gen_raises_exactly_on_unknown_splits (canon enc : string → result string)
    (format : string) (token : bool) (dataset : Dataset) (split : string) (g : rng) :
  (split ≠ "train" ∧ split ≠ "dev" ∧ split ≠ "test" →
     S2F_gen_of_dataset canon enc format token dataset split g = (Raise (KeyError split), g)
     ∧ I2S_gen_of_dataset format token dataset split g = (Raise (KeyError split), g))
  ∧ (split = "train" ∨ split = "dev" ∨ split = "test" →
     ∃ rows,
       dataset_getitem dataset split = Ok rows
       ∧ S2F_gen_of_dataset canon enc format token dataset split g
         = S2F.gen canon enc format token rows split g
       ∧ I2S_gen_of_dataset format token dataset split g
         = I2S.gen format token rows split g
       ∧ is_ok (S2F_gen_of_dataset canon enc format token dataset split g).1 = true
       ∧ is_ok (I2S_gen_of_dataset format token dataset split g).1 = true).
Proof.
  split.
  - intros (Htrain & Hdev & Htest).
    apply String.eqb_neq in Htrain, Hdev, Htest.
    unfold S2F_gen_of_dataset, I2S_gen_of_dataset, dataset_getitem, mbind, M_bind, lift.
    by rewrite Htrain, Hdev, Htest.
  - intros Hsplit.
    assert (Hrows : ∃ rows, dataset_getitem dataset split = Ok rows).
    { unfold dataset_getitem. destruct Hsplit as [-> | [-> | ->]]; simpl; eauto. }
    destruct Hrows as [rows Hrows]. exists rows. split; [done|].
    unfold S2F_gen_of_dataset, I2S_gen_of_dataset, mbind, M_bind, lift. rewrite Hrows.
    do 2 (split; [done|]).
    destruct (S2F_gen_run canon enc format token rows split g) as (out & g1 & -> & _).
    destruct (I2S_gen_run format token rows split g) as (out' & g2 & -> & _).
    done.
Qed.

Lemma X1_gen_raises_exactly_on_unknown_splits_witness :
  S2F_gen_of_dataset sample_canon sample_encoder "smiles" true
    (mkDataset sample_rows sample_rows []) "validation" sample_tape
    = (Raise (KeyError "validation"), sample_tape)
  ∧ is_ok (I2S_gen_of_dataset "smiles" true
             (mkDataset sample_rows sample_rows []) "test" sample_tape).1 = true.
Proof.
  split.
  - apply (X1_gen_raises_exactly_on_unknown_splits sample_canon sample_encoder "smiles"
             true (mkDataset sample_rows sample_rows []) "validation" sample_tape).
    repeat split; discriminate.
  - destruct (proj2 (X1_gen_raises_exactly_on_unknown_splits sample_canon sample_encoder
                       "smiles" true (mkDataset sample_rows sample_rows []) "test"
                       sample_tape)) as (rows & _ & _ & _ & _ & Hok).
    + right. right. reflexivity.
    + exact Hok.
Defined.

(** X2. The dev split is assembled exactly like the train split: on the same
    rows and the same generator state, [gen("dev")] and [gen("train")] return
    the same records, in both pipelines. *)
Theorem X2_dev_is_assembled_like_train (canon enc : string → result string)
    (format : string) (token : bool) (rows : list row) (g : rng) :
  S2F.gen canon enc format token rows "dev" g
    = S2F.gen canon enc format token rows "train" g
  ∧ I2S.gen format token rows "dev" g = I2S.gen format token rows "train" g.
Proof.
  split; apply gen_loop_ext; intros j item gj.
  - by rewrite !S2F_gen_body_eq.
  - by rewrite !I2S_gen_body_eq.
Qed.

(** X3. In the formula pipeline, with token mode off and a format that is
    neither ["smiles"] nor ["selfies"], every row is dropped: [gen] returns
    the empty list for every split and draws nothing. *)
Theorem X3_unsupported_format_drops_every_row (canon enc : string → result string)
    (format : string) (rows : list row) (split : string) (g : rng) :
  format ≠ "smiles" → format ≠ "selfies" →
  S2F.gen canon enc format false rows split g = (Ok [], g).
Proof.
  intros Hsm Hse. apply gen_loop_all_raise. intros j item gj.
  destruct (S2F_gen_body_cases canon enc format false rows split j item gj)
    as [[c Hc] | He]; [|done].
  apply S2F_gen_body_Ok in Hc as (input & output & sf & smi & mol & _ & _ & _ & Hp & _).
  exfalso. revert Hp. unfold S2F.process_input, mbind, result_bind.
  destruct (canon input) as [smi'|]; [|done].
  destruct (enc smi') as [sf'|]; [|done].
  apply String.eqb_neq in Hsm, Hse. by rewrite Hsm, Hse.
Qed.

Lemma X3_unsupported_format_drops_every_row_witness :
  S2F.gen sample_canon sample_encoder "inchi" false sample_rows "train" sample_tape
    = (Ok [], sample_tape).
Proof.
  apply (X3_unsupported_format_drops_every_row sample_canon sample_encoder "inchi"
           sample_rows "train" sample_tape); discriminate.
Defined.

(** X4. The name pipeline does not use [--format] and [--token]: on the same
    rows, split and generator state, [gen] returns the same records whatever
    the two arguments are. *)
Theorem X4_name_pipeline_ignores_format_and_token
    (format format' : string) (token token' : bool)
    (rows : list row) (split : string) (g : rng) :
  I2S.gen format token rows split g = I2S.gen format' token' rows split g.
Proof.
  apply gen_loop_ext. intros j item gj. rewrite !I2S_gen_body_eq.
  destruct (known_split split); [|done].
  destruct (item !! "input") as [input|]; [|done].
  destruct (item !! "output") as [output|]; [|done].
  by rewrite !I2S_conversation_train_eq, !I2S_conversation_test_eq.
Qed.

(** X5. In the formula pipeline the [molecules] of every emitted record are
    computed from the input text of its row, whatever the token flag and the
    format: [smiles] is the canonical SMILES of the input and [selfies] is
    the SELFIES encoding of that canonical SMILES.  In the name pipeline both
    fields of every emitted record are the empty list. *)
Theorem X5_molecules_of_a_record (canon enc : string → result string)
    (format : string) (token : bool) (rows : list row) (split : string) (g : rng) :
  (∃ out g',
     S2F.gen canon enc format token rows split g = (Ok out, g')
     ∧ Forall (λ c, ∃ input smiles selfies,
         (rows !! Conv.id c) ≫= (.!! "input") = Some input
         ∧ canon input = Ok smiles
         ∧ enc smiles = Ok selfies
         ∧ Conv.molecules c = Conv.mkMolecules (MolText selfies) (MolText smiles)) out)
  ∧ (∃ out g',
     I2S.gen format token rows split g = (Ok out, g')
     ∧ Forall (λ c,
         Conv.molecules c = Conv.mkMolecules MolEmptyList MolEmptyList) out).
Proof.
  split.
  - destruct (S2F_gen_run canon enc format token rows split g)
      as (out & g' & Hrun & _ & Hall).
    exists out, g'. split; [done|]. apply Forall_forall. intros c Hc.
    destruct (Hall c Hc) as (item & gk & gk' & Hrow & Hb).
    apply S2F_gen_body_Ok in Hb as (input & output & sf & smi & mol & _ & Hin & _ & Hp & ->).
    apply S2F_process_input_Ok in Hp as (Hcanon & Henc & _).
    exists input, smi, sf. simpl in Hrow |- *. by rewrite Hrow.
  - destruct (I2S_gen_run format token rows split g)
      as (out & g' & Hrun & _ & Hall).
    exists out, g'. split; [done|]. apply Forall_forall. intros c Hc.
    destruct (Hall c Hc) as (item & gk & gk' & Hrow & Hb).
    by apply I2S_gen_body_Ok in Hb as (input & output & _ & _ & _ & ->).
Qed.

(** X6. In the formula pipeline with token mode off, the user prompt of
    every emitted record is a catalog template's input with [<INPUT>]
    replaced by the canonical SMILES of the row's input when the format is
    ["smiles"], and by the SELFIES encoding of that canonical SMILES when the
    format is ["selfies"]; the raw input text is not what fills the slot. *)
Theorem X6_text_mode_prompt (canon enc : string → result string)
    (use_selfies : bool) (rows : list row) (split : string) (g : rng) :
  ∃ out g',
    S2F.gen canon enc (if use_selfies then "selfies" else "smiles") false rows split g
      = (Ok out, g')
    ∧ Forall (λ c, ∃ t input smiles selfies,
        t ∈ S2F.PROMPT_TEMPLATES
        ∧ (rows !! Conv.id c) ≫= (.!! "input") = Some input
        ∧ canon input = Ok smiles
        ∧ enc smiles = Ok selfies
        ∧ turns ROLE_USER (Conv.messages c)
          = [str_replace (Template.input t) "<INPUT>"
               (if use_selfies then selfies else smiles)]) out.
Proof.
  destruct (S2F_gen_run canon enc (if use_selfies then "selfies" else "smiles") false
              rows split g) as (out & g' & Hrun & _ & Hall).
  exists out, g'. split; [done|]. apply Forall_forall. intros c Hc.
  destruct (Hall c Hc) as (item & gk & gk' & Hrow & Hb).
  apply S2F_user_prompt in Hb as (t & input & sf & smi & mol & Ht & Hin & Hp & Hturn).
  apply S2F_process_input_Ok in Hp as (Hcanon & Henc & ->).
  exists t, input, smi, sf. rewrite Hrow. simpl.
  repeat (split; [done|]). rewrite Hturn. by destruct use_selfies.
Qed.

(** X7. When the split is one of the three and no row fails (every row has
    both fields and, in the formula pipeline, its input canonicalizes and
    encodes and the format is supported), [gen] yields one record per row, in
    the order of the rows: the ids are [0, 1, ..., n-1] and the [ground_truth]
    of the i-th record is the [output] of the i-th row. *)
Theorem X7_no_failure_no_loss (canon enc : string → result string)
    (format : string) (token : bool) (rows : list row) (split : string) (g : rng) :
  split = "train" ∨ split = "dev" ∨ split = "test" →
  Forall (λ item, is_Some (item !! "input") ∧ is_Some (item !! "output")) rows →
  (∃ out g',
     I2S.gen format token rows split g = (Ok out, g')
     ∧ Conv.id <$> out = seq 0 (length rows)
     ∧ Forall2 (λ item c, item !! "output" = Some (Conv.ground_truth c)) rows out)
  ∧ (Forall (λ item, ∀ input, item !! "input" = Some input →
               is_ok (S2F.process_input canon enc input format token) = true) rows →
     ∃ out g',
       S2F.gen canon enc format token rows split g = (Ok out, g')
       ∧ Conv.id <$> out = seq 0 (length rows)
       ∧ Forall2 (λ item c, item !! "output" = Some (Conv.ground_truth c)) rows out).
Proof.
  intros Hsplit Hfields.
  assert (Hknown : known_split split = true).
  { unfold known_split. destruct Hsplit as [-> | [-> | ->]]; reflexivity. }
  split.
  - destruct (I2S_gen_run format token rows split g) as (out & g' & Hrun & Hids & _).
    assert (Hkeep : Forall (λ item, I2S_assembles split item = true) rows).
    { eapply Forall_impl; [exact Hfields|]. intros item [Hi Ho].
      unfold I2S_assembles, has_fields. rewrite Hknown.
      by rewrite !bool_decide_eq_true_2. }
    exists out, g'. split; [done|]. split.
    + rewrite Hids. by apply kept_from_all.
    + eapply gen_loop_Forall2; [| |exact Hrun].
      * intros j item gj c gj' Hb.
        by apply I2S_gen_body_Ok in Hb as (input & output & _ & _ & Hou & ->).
      * eapply Forall_impl; [exact Hkeep|]. intros item Hk j gj.
        by rewrite I2S_gen_body_ok.
  - intros Hproc.
    destruct (S2F_gen_run canon enc format token rows split g)
      as (out & g' & Hrun & Hids & _).
    assert (Hkeep : Forall (λ item,
              S2F_assembles canon enc format token split item = true) rows).
    { apply Forall_forall. intros item Hitem.
      pose proof (proj1 (Forall_forall _ _) Hfields item Hitem) as [[input Hi] Ho].
      pose proof (proj1 (Forall_forall _ _) Hproc item Hitem input Hi) as Hp.
      unfold S2F_assembles, has_fields. rewrite Hknown, Hi, Hp.
      rewrite !bool_decide_eq_true_2; done. }
    exists out, g'. split; [done|]. split.
    + rewrite Hids. by apply kept_from_all.
    + eapply gen_loop_Forall2; [| |exact Hrun].
      * intros j item gj c gj' Hb.
        by apply S2F_gen_body_Ok in Hb as (? & ? & ? & ? & ? & _ & _ & Hou & _ & ->).
      * eapply Forall_impl; [exact Hkeep|]. intros item Hk j gj.
        by rewrite S2F_gen_body_ok.
Qed.

Lemma X7_no_failure_no_loss_witness :
  ∃ out g',
    I2S.gen "smiles" true sample_rows "test" sample_tape = (Ok out, g')
    ∧ Conv.id <$> out = [0; 1; 2]
    ∧ Forall2 (λ item c, item !! "output" = Some (Conv.ground_truth c)) sample_rows out.
Proof.
  apply (X7_no_failure_no_loss sample_canon sample_encoder "smiles" true
           sample_rows "test" sample_tape).
  - right. right. reflexivity.
  - repeat constructor; vm_compute; eauto.
Defined.

(** X8. On a split (train, dev or test) whose rows all have both fields,
    every yielded record costs exactly one draw of the random generator, the
    choice of its template, and a row that [process_input] refuses costs
    none: after [gen] the generator stands where it stood, advanced by the
    number of records that came out.  In the name pipeline that number is the
    number of rows. *)
Theorem X8_one_draw_per_record (canon enc : string → result string)
    (format : string) (token : bool) (rows : list row) (split : string) (g : rng) :
  split = "train" ∨ split = "dev" ∨ split = "test" →
  Forall (λ item, is_Some (item !! "input") ∧ is_Some (item !! "output")) rows →
  (∃ out g',
     S2F.gen canon enc format token rows split g = (Ok out, g')
     ∧ ∀ i, g' i = g (length out + i))
  ∧ (∃ out g',
     I2S.gen format token rows split g = (Ok out, g')
     ∧ length out = length rows
     ∧ ∀ i, g' i = g (length rows + i)).
Proof.
  intros Hsplit Hfields. split.
  - destruct (S2F_gen_run canon enc format token rows split g) as (out & g' & Hrun & _).
    exists out, g'. split; [done|].
    eapply gen_loop_state; [|exact Hrun]. intros j item gj.
    apply S2F_gen_body_cases.
  - destruct (I2S_gen_run format token rows split g) as (out & g' & Hrun & Hids & _).
    assert (Hknown : known_split split = true).
    { unfold known_split. destruct Hsplit as [-> | [-> | ->]]; reflexivity. }
    assert (Hlen : length out = length rows).
    { rewrite <-(length_fmap Conv.id out), Hids. unfold kept_indices.
      rewrite kept_from_all; [by rewrite length_seq|].
      eapply Forall_impl; [exact Hfields|]. intros item [Hi Ho].
      unfold I2S_assembles, has_fields. rewrite Hknown.
      by rewrite !bool_decide_eq_true_2. }
    exists out, g'. split; [done|]. split; [done|]. rewrite <-Hlen.
    eapply gen_loop_state; [|exact Hrun]. intros j item gj.
    apply I2S_gen_body_cases.
Qed.

Lemma X8_one_draw_per_record_witness :
  ∃ out g',
    S2F.gen sample_canon sample_encoder "smiles" true sample_rows "train" sample_tape
      = (Ok out, g')
    ∧ length out = 2
    ∧ ∀ i, g' i = sample_tape (2 + i).
Proof.
  destruct (X8_one_draw_per_record sample_canon sample_encoder "smiles" true
              sample_rows "train" sample_tape) as [(out & g' & Hrun & Hstate) _].
  - left. reflexivity.
  - repeat constructor; vm_compute; eauto.
  - assert (Hlen : length out = 2).
    { vm_compute in Hrun. injection Hrun as <- _. reflexivity. }
    exists out, g'. split; [exact Hrun|]. split; [exact Hlen|].
    intros i. rewrite (Hstate i), Hlen. reflexivity.
Defined.

(** X9. In both pipelines the text that fills a slot is found again in the
    message: every assistant message contains the [ground_truth] of its
    record, and every user prompt contains the text put for [<INPUT>] (the
    input text of the row in the name pipeline; the molecule text that
    [process_input] returns in the formula pipeline). *)
Theorem X9_messages_contain_the_filling (canon enc : string → result string)
    (format : string) (token : bool) (rows : list row) (split : string) (g : rng) :
  (∃ out g',
     S2F.gen canon enc format token rows split g = (Ok out, g')
     ∧ Forall (λ c,
         Forall (λ answer, str_in (Conv.ground_truth c) answer = true)
           (turns ROLE_ASSISTANT (Conv.messages c))
         ∧ ∃ input selfies smiles molecule,
             (rows !! Conv.id c) ≫= (.!! "input") = Some input
             ∧ S2F.process_input canon enc input format token
               = Ok (selfies, smiles, molecule)
             ∧ Forall (λ prompt, str_in molecule prompt = true)
                 (turns ROLE_USER (Conv.messages c))) out)
  ∧ (∃ out g',
     I2S.gen format token rows split g = (Ok out, g')
     ∧ Forall (λ c,
         Forall (λ answer, str_in (Conv.ground_truth c) answer = true)
           (turns ROLE_ASSISTANT (Conv.messages c))
         ∧ ∃ input,
             (rows !! Conv.id c) ≫= (.!! "input") = Some input
             ∧ Forall (λ prompt, str_in input prompt = true)
                 (turns ROLE_USER (Conv.messages c))) out).
Proof.
  split.
  - destruct (S2F_gen_run canon enc format token rows split g)
      as (out & g' & Hrun & _ & Hall).
    exists out, g'. split; [done|]. apply Forall_forall. intros c Hc.
    destruct (Hall c Hc) as (item & gk & gk' & Hrow & Hb).
    apply S2F_gen_body_Ok in Hb as (input & output & sf & smi & mol & _ & Hin & _ & Hp & ->).
    pose proof (S2F_filled_contains _ mol (S2F_chosen_in gk)) as [Huser _].
    pose proof (S2F_filled_contains _ output (S2F_chosen_in gk)) as [_ Hanswer].
    cbn [Conv.id Conv.messages Conv.ground_truth]. rewrite Hrow. split.
    + destruct (String.eqb split "test"); repeat constructor. done.
    + exists input, sf, smi, mol. do 2 (split; [done|]).
      destruct (String.eqb split "test"); repeat constructor; done.
  - destruct (I2S_gen_run format token rows split g)
      as (out & g' & Hrun & _ & Hall).
    exists out, g'. split; [done|]. apply Forall_forall. intros c Hc.
    destruct (Hall c Hc) as (item & gk & gk' & Hrow & Hb).
    apply I2S_gen_body_Ok in Hb as (input & output & _ & Hin & _ & ->).
    pose proof (I2S_filled_contains _ input (I2S_chosen_in gk)) as [Huser _].
    pose proof (I2S_filled_contains _ output (I2S_chosen_in gk)) as [_ Hanswer].
    cbn [Conv.id Conv.messages Conv.ground_truth]. rewrite Hrow. split.
    + destruct (String.eqb split "test"); repeat constructor. done.
    + exists input. split; [done|].
      destruct (String.eqb split "test"); repeat constructor; done.
Qed.

(** X10. On a string input and a string output, the test assembler
    without few-shot examples returns the record that the train assembler
    returns on the same arguments and generator state, less its assistant
    turn: same id, molecules, ground truth, system and user message, same
    template, same state afterwards.  In the name pipeline both return; in
    the formula pipeline both return when [process_input] does, and both
    raise its error when it raises. *)
Theorem X10_test_is_train_without_answer (canon enc : string → result string)
    (id : nat) (input output format : string) (token : bool) (g : rng) :
  (∃ c,
     I2S.conversation_train id input output format token g = (Ok c, advance g)
     ∧ I2S.conversation_test id input output None format token g
       = (Ok (without_answer c), advance g)
     ∧ Conv.role <$> Conv.messages c = [ROLE_SYSTEM; ROLE_USER; ROLE_ASSISTANT])
  ∧ match S2F.process_input canon enc input format token with
    | Ok _ =>
        ∃ c,
          S2F.conversation_train canon enc id input output format token g
          = (Ok c, advance g)
          ∧ S2F.conversation_test canon enc id input output None format token g
            = (Ok (without_answer c), advance g)
          ∧ Conv.role <$> Conv.messages c = [ROLE_SYSTEM; ROLE_USER; ROLE_ASSISTANT]
    | Raise e =>
        S2F.conversation_train canon enc id input output format token g = (Raise e, g)
        ∧ S2F.conversation_test canon enc id input output None format token g
          = (Raise e, g)
    end.
Proof.
  rewrite S2F_conversation_test_eq, S2F_conversation_train_eq by done.
  rewrite I2S_conversation_test_eq, I2S_conversation_train_eq by done.
  split; [by eexists|].
  destruct (S2F.process_input _ _ _ _ _) as [[[sf smi] mol]|e]; [by eexists|done].
Qed.

(** X11. In the formula pipeline canonicalization and encoding come first,
    in every mode: when they raise on the input of a row, [process_input]
    raises that same error whatever the format and the token flag (also when
    the format is unsupported, also in token mode, where the molecule text is
    not used in the prompt), and [gen] drops the row. *)
Theorem X11_unparsable_input_is_dropped_in_every_mode
    (canon enc : string → result string)
    (format : string) (token : bool) (rows : list row) (split : string) (g : rng)
    (i : nat) (item : row) (input : string) (e : exn) :
  rows !! i = Some item →
  item !! "input" = Some input →
  canon input ≫= enc = Raise e →
  S2F.process_input canon enc input format token = Raise e
  ∧ ∃ out g',
      S2F.gen canon enc format token rows split g = (Ok out, g')
      ∧ (i ∉ (Conv.id <$> out))
      ∧ length out < length rows.
Proof.
  intros Hrow Hin Hraise.
  assert (Hp : S2F.process_input canon enc input format token = Raise e).
  { revert Hraise. unfold S2F.process_input, mbind, result_bind.
    destruct (canon input) as [smi|e0]; simpl; [by intros ->|congruence]. }
  split; [done|].
  destruct (S2F_gen_run canon enc format token rows split g)
    as (out & g' & Hrun & Hids & _).
  assert (Hdrop : S2F_assembles canon enc format token split item = false).
  { unfold S2F_assembles. rewrite Hin, Hp. apply andb_false_r. }
  exists out, g'. split; [done|]. split.
  - rewrite Hids, elem_of_kept_indices. intros (item' & Hrow' & Hk). congruence.
  - rewrite <-(length_fmap Conv.id out), Hids. by eapply kept_from_length_lt.
Qed.

Lemma X11_unparsable_input_is_dropped_in_every_mode_witness :
  S2F.process_input sample_canon sample_encoder "" "inchi" true
    = Raise (LibraryError "cannot parse")
  ∧ ∃ out g',
      S2F.gen sample_canon sample_encoder "inchi" true sample_rows "train" sample_tape
        = (Ok out, g')
      ∧ (1 ∉ (Conv.id <$> out))
      ∧ length out < 3.
Proof.
  apply (X11_unparsable_input_is_dropped_in_every_mode sample_canon sample_encoder
           "inchi" true sample_rows "train" sample_tape 1
           {[ "input" := ""; "output" := "H2" ]} "" (LibraryError "cannot parse"));
    reflexivity.
Defined.

(** X12. With a non-empty list of few-shot examples that all have both
    fields, the test assembler of the name pipeline returns a record whose
    user prompt is the preamble, a line feed, one line per example joined by
    line feeds, a line feed, and then the very prompt it returns without
    few-shot examples in the same generator state; the rest of the record is
    the same.  The k-th line is
    [Few-shot example k+1: <input> -> <output>] of the k-th example.  The
    formula pipeline does the same once [process_input] has succeeded. *)
Theorem X12_few_shot_block (canon enc : string → result string)
    (id : nat) (input output : string) (few_shots : list row)
    (format : string) (token : bool) (g : rng) :
  few_shots ≠ [] →
  Forall (λ ex, is_Some (ex !! "input") ∧ is_Some (ex !! "output")) few_shots →
  ∃ lines,
    length lines = length few_shots
    ∧ (∀ k ex, few_shots !! k = Some ex →
         ∃ inp out,
           ex !! "input" = Some inp ∧ ex !! "output" = Some out
           ∧ lines !! k = Some ("Few-shot example " +:+ str_of_nat (k + 1) +:+ ": "
                                  +:+ inp +:+ " -> " +:+ out))
    ∧ (∃ plain,
         I2S.conversation_test id input output None format token g
         = (Ok (Conv.mk id (Conv.mkMolecules MolEmptyList MolEmptyList) output
                  [ Conv.mkMessage ROLE_SYSTEM I2S.SYSTEM_PROMPT;
                    Conv.mkMessage ROLE_USER plain ]), advance g)
         ∧ I2S.conversation_test id input output (Some few_shots) format token g
         = (Ok (Conv.mk id (Conv.mkMolecules MolEmptyList MolEmptyList) output
                  [ Conv.mkMessage ROLE_SYSTEM I2S.SYSTEM_PROMPT;
                    Conv.mkMessage ROLE_USER
                      (I2S.FEW_SHOT_PROMPT +:+ nl +:+ str_join nl lines +:+ nl +:+ plain) ]),
            advance g))
    ∧ match S2F.process_input canon enc input format token with
      | Ok (selfies, smiles, molecule) =>
          ∃ plain,
            S2F.conversation_test canon enc id input output None format token g
            = (Ok (Conv.mk id (Conv.mkMolecules (MolText selfies) (MolText smiles)) output
                     [ Conv.mkMessage ROLE_SYSTEM S2F.SYSTEM_PROMPT;
                       Conv.mkMessage ROLE_USER plain ]), advance g)
            ∧ S2F.conversation_test canon enc id input output (Some few_shots)
                format token g
            = (Ok (Conv.mk id (Conv.mkMolecules (MolText selfies) (MolText smiles)) output
                     [ Conv.mkMessage ROLE_SYSTEM S2F.SYSTEM_PROMPT;
                       Conv.mkMessage ROLE_USER
                         (S2F.FEW_SHOT_PROMPT +:+ nl +:+ str_join nl lines +:+ nl
                            +:+ plain) ]),
               advance g)
      | Raise e =>
          S2F.conversation_test canon enc id input output (Some few_shots) format token g
          = (Raise e, g)
      end.
Proof.
  intros Hne Hall.
  destruct (few_shot_lines_Ok 0 few_shots Hall) as (lines & Hlines & Hrel).
  assert (Hfalsy : falsy_list (Some few_shots) = false) by (by destruct few_shots).
  exists lines. split; [|split; [|split]].
  - apply Forall2_length in Hrel. by rewrite enumerate_from_length in Hrel.
  - intros k ex Hk.
    pose proof (proj1 (Forall_forall _ _) Hall ex (list_elem_of_lookup_2 _ _ _ Hk))
      as [[inp Hi] [out Ho]].
    exists inp, out. do 2 (split; [done|]).
    assert (Hp : enumerate_from 0 few_shots !! k = Some (k, ex))
      by (by rewrite enumerate_from_lookup, Hk).
    destruct (Forall2_lookup_l _ _ _ _ _ Hrel Hp) as (line & Hline & Hfs).
    rewrite Hline. f_equal. revert Hfs. unfold few_shot_line, getitem.
    rewrite Hi, Ho. simpl. unfold mbind, result_bind, mret, result_ret. congruence.
  - eexists. split; [by apply I2S_conversation_test_eq|].
    unfold I2S.conversation_test, mbind at 1, M_bind.
    rewrite (proj1 (random_choice_spec (Template.mk "" "") _ g I2S_catalog_nonempty)).
    rewrite Hfalsy. change (default [] (Some few_shots)) with few_shots.
    unfold mbind, M_bind, lift. by rewrite Hlines.
  - destruct (S2F.process_input canon enc input format token)
      as [[[selfies smiles] molecule]|e] eqn:Hp.
    + eexists. split.
      * rewrite S2F_conversation_test_eq by done. by rewrite Hp.
      * unfold S2F.conversation_test, mbind at 1, M_bind, lift. rewrite Hp.
        unfold mbind at 1, M_bind.
        rewrite (proj1 (random_choice_spec (Template.mk "" "") _ g S2F_catalog_nonempty)).
        rewrite Hfalsy. change (default [] (Some few_shots)) with few_shots.
        unfold mbind, M_bind, lift. by rewrite Hlines.
    + unfold S2F.conversation_test, mbind at 1, M_bind, lift. by rewrite Hp.
Qed.

Lemma X12_few_shot_block_witness :
  ∃ lines,
    length lines = 3
    ∧ lines !! 0 = Some "Few-shot example 1: CCO -> C2H6O"
    ∧ ∃ plain,
        I2S.conversation_test 7 "ethanol" "CCO" (Some sample_rows) "smiles" true sample_tape
        = (Ok (Conv.mk 7 (Conv.mkMolecules MolEmptyList MolEmptyList) "CCO"
                 [ Conv.mkMessage ROLE_SYSTEM I2S.SYSTEM_PROMPT;
                   Conv.mkMessage ROLE_USER
                     (I2S.FEW_SHOT_PROMPT +:+ nl +:+ str_join nl lines +:+ nl +:+ plain) ]),
           advance sample_tape).
Proof.
  destruct (X12_few_shot_block sample_canon sample_encoder 7 "ethanol" "CCO"
              sample_rows "smiles" true sample_tape)
    as (lines & Hlen & Hline & (plain & _ & Hrun) & _).
  - discriminate.
  - repeat constructor; vm_compute; eauto.
  - exists lines. split; [exact Hlen|]. split.
    + destruct (Hline 0 {[ "input" := "CCO"; "output" := "C2H6O" ]} eq_refl)
        as (inp & out & Hi & Ho & ->).
      vm_compute in Hi. vm_compute in Ho.
      injection Hi as <-. injection Ho as <-. reflexivity.
    + exists plain. exact Hrun.
Defined.

(** X13. When some few-shot example lacks its input or its output, the test
    assembler of the name pipeline raises the [KeyError] of a missing field,
    after the template was drawn; so does the formula pipeline once
    [process_input] has succeeded. *)
Theorem X13_few_shot_example_without_field (canon enc : string → result string)
    (id : nat) (input output : string) (few_shots : list row)
    (format : string) (token : bool) (g : rng) :
  Exists (λ ex, ex !! "input" = None ∨ ex !! "output" = None) few_shots →
  ∃ key,
    (key = "input" ∨ key = "output")
    ∧ I2S.conversation_test id input output (Some few_shots) format token g
      = (Raise (KeyError key), advance g)
    ∧ S2F.conversation_test canon enc id input output (Some few_shots) format token g
      = match S2F.process_input canon enc input format token with
        | Ok _ => (Raise (KeyError key), advance g)
        | Raise e => (Raise e, g)
        end.
Proof.
  intros Hex.
  destruct (few_shot_lines_Raise 0 few_shots Hex) as (key & Hkey & Hlines).
  assert (Hfalsy : falsy_list (Some few_shots) = false).
  { destruct few_shots; [by apply Exists_nil in Hex|done]. }
  exists key. split; [done|]. split.
  - unfold I2S.conversation_test, mbind at 1, M_bind.
    rewrite (proj1 (random_choice_spec (Template.mk "" "") _ g I2S_catalog_nonempty)).
    rewrite Hfalsy. change (default [] (Some few_shots)) with few_shots.
    unfold mbind, M_bind, lift. by rewrite Hlines.
  - unfold S2F.conversation_test, mbind at 1, M_bind, lift.
    destruct (S2F.process_input canon enc input format token)
      as [[[selfies smiles] molecule]|e]; [|done].
    unfold mbind at 1, M_bind.
    rewrite (proj1 (random_choice_spec (Template.mk "" "") _ g S2F_catalog_nonempty)).
    rewrite Hfalsy. change (default [] (Some few_shots)) with few_shots.
    unfold mbind, M_bind, lift. by rewrite Hlines.
Qed.

Lemma X13_few_shot_example_without_field_witness :
  ∃ key,
    (key = "input" ∨ key = "output")
    ∧ I2S.conversation_test 0 "ethanol" "CCO" (Some sample_rows_missing) "smiles" true
        sample_tape
      = (Raise (KeyError key), advance sample_tape).
Proof.
  destruct (X13_few_shot_example_without_field sample_canon sample_encoder 0
              "ethanol" "CCO" sample_rows_missing "smiles" true sample_tape)
    as (key & Hkey & Hrun & _).
  - apply Exists_cons_tl, Exists_cons_hd. right. reflexivity.
  - exists key. split; [exact Hkey | exact Hrun].
Defined.

(** X14. [generate_few_shot_examples] with a count [n] between 1 and the
    number of rows returns exactly [n] examples, all taken from the rows and
    none taken more often than the rows hold it (a sample without
    replacement). *)
Theorem X14_few_shot_sample (rows : list row) (n : nat) (g : rng) :
  1 ≤ n ≤ length rows →
  ∃ picked g',
    generate_few_shot_examples rows (Some n) g = (Ok (Some picked), g')
    ∧ length picked = n
    ∧ picked ⊆+ rows.
Proof.
  intros [Hpos Hle]. unfold generate_few_shot_examples.
  destruct n as [|m]; [lia|]. cbn [falsy_int].
  destruct (sorted_by_random_key_spec rows g) as (shuffled & g1 & Hsort & Hperm & Hstate1).
  destruct (random_sample_spec shuffled (S m) g1) as (picked & g2 & Hsample & Hlen & Hsub & Hstate2).
  { by rewrite (Permutation_length Hperm). }
  exists picked, g2. split.
  { unfold mbind, M_bind. rewrite Hsort.
    change (default 0 (Some (S m))) with (S m). by rewrite Hsample. }
  split; [done|]. by rewrite <-Hperm.
Qed.

Lemma X14_few_shot_sample_witness :
  ∃ picked g',
    generate_few_shot_examples sample_rows (Some 2) sample_tape = (Ok (Some picked), g')
    ∧ length picked = 2
    ∧ picked ⊆+ sample_rows.
Proof.
  destruct (X14_few_shot_sample sample_rows 2 sample_tape)
    as (picked & g' & Hrun & Hlen & Hsub).
  - simpl. lia.
  - exists picked, g'. split; [exact Hrun|]. split; [exact Hlen | exact Hsub].
Defined.

(** X15. [generate_few_shot_examples] with a count larger than the number
    of rows raises the [ValueError] of [random.sample], after one random key
    per row was read; so it does with its default count, 5, on fewer than
    five rows. *)
Theorem X15_few_shot_sample_too_large (rows : list row) (n : nat) (g : rng) :
  length rows < n →
  ∃ g',
    generate_few_shot_examples rows (Some n) g
    = (Raise (ValueError "Sample larger than population or is negative"), g')
    ∧ ∀ i, g' i = g (length rows + i).
Proof.
  intros Hlt. unfold generate_few_shot_examples.
  destruct n as [|m]; [lia|]. cbn [falsy_int].
  destruct (sorted_by_random_key_spec rows g) as (shuffled & g1 & Hsort & Hperm & Hstate1).
  exists g1. split; [|done].
  unfold mbind, M_bind. rewrite Hsort.
  change (default 0 (Some (S m))) with (S m).
  rewrite random_sample_too_large; [done|]. by rewrite (Permutation_length Hperm).
Qed.

Lemma X15_few_shot_sample_too_large_witness :
  ∃ g',
    generate_few_shot_examples sample_rows (Some 5) sample_tape
    = (Raise (ValueError "Sample larger than population or is negative"), g')
    ∧ ∀ i, g' i = sample_tape (3 + i).
Proof.
  apply (X15_few_shot_sample_too_large sample_rows 5 sample_tape). simpl. lia.
Defined.

(** X16. A format that the command line accepts is one that
    [process_input] supports: with [--format] parsed by argparse (absent, or
    one of the two choices), [process_input] succeeds whenever
    canonicalization and encoding succeed, whatever the token flag, so that
    the [ValueError] on the format cannot come from the command line. *)
Theorem X16_cli_format_is_supported (canon enc : string → result string)
    (supplied : option string) (format input smiles selfies : string) (token : bool) :
  parse_format supplied = Some format →
  canon input = Ok smiles →
  enc smiles = Ok selfies →
  (format = "smiles" ∨ format = "selfies")
  ∧ S2F.process_input canon enc input format token
    = Ok (selfies, smiles,
          if token then S2F.MOLECULE_TOKEN
          else if String.eqb format "smiles" then smiles else selfies).
Proof.
  intros Hparse Hc He.
  assert (Hfmt : format = "smiles" ∨ format = "selfies").
  { destruct supplied as [s|]; simpl in Hparse; [|injection Hparse as <-; by left].
    case_bool_decide as Hs; [|done]. injection Hparse as <-.
    apply elem_of_cons in Hs as [->|Hs]; [by left|].
    apply list_elem_of_singleton in Hs as ->. by right. }
  split; [done|].
  rewrite (S2F_process_input_eq canon enc input format token _ _ Hc He).
  destruct token; [done|]. by destruct Hfmt as [-> | ->].
Qed.

Lemma X16_cli_format_is_supported_witness :
  parse_format (Some "selfies") = Some "selfies"
  ∧ parse_format (Some "inchi") = None
  ∧ S2F.process_input sample_canon sample_encoder "CCO" "selfies" false
    = Ok ("[C][C][O]", "CCO", "[C][C][O]").
Proof.
  split; [reflexivity|]. split; [reflexivity|].
  apply (X16_cli_format_is_supported sample_canon sample_encoder (Some "selfies")
           "selfies" "CCO" "CCO" "[C][C][O]" false); reflexivity.
Defined.

(** ** Further properties of the multi-image builder *)

Section Traverse.

Context {A B : Type}.

Lemma traverse_total (f : A → result B) l :
  Forall (λ x, is_ok (f x) = true) l → ∃ ys, traverse f l = Ok ys.
Proof.
  induction 1 as [|x l Hx _ [ys IH]]; [by exists []|].
  destruct (f x) as [y|] eqn:Hfx; [|done].
  exists (y :: ys). simpl. unfold mbind, result_bind. by rewrite Hfx, IH.
Qed.

Lemma traverse_raise (f : A → result B) l :
  Exists (λ x, is_ok (f x) = false) l → ∃ e, traverse f l = Raise e.
Proof.
  induction l as [|x l IH]; intros Hex; [by apply Exists_nil in Hex|].
  simpl. unfold mbind, result_bind.
  destruct (f x) as [y|e] eqn:Hfx; [|eauto].
  apply Exists_cons in Hex as [Hx|Hl]; [by rewrite Hfx in Hx|].
  destruct (IH Hl) as [e ->]. eauto.
Qed.

End Traverse.

Section Rounds.

Variable openai_Client : result unit.
Variable create_chat : string → result (gmap string string).

Lemma paths_of_sample (data : list Llava.Pretrain.t) idxs exs paths :
  Forall2 (λ i e, data !! i = Some e) idxs exs →
  Forall2 (λ e p, Llava.Pretrain.images e !! 0 = Some p) exs paths →
  Forall2 (λ i p, ∃ e, data !! i = Some e ∧ Llava.Pretrain.images e !! 0 = Some p)
    idxs paths.
Proof.
  intros Hidx. revert paths.
  induction Hidx as [|i e idxs exs Hi _ IH]; intros paths Hpaths.
  - apply Forall2_nil_inv_l in Hpaths as ->. constructor.
  - apply Forall2_cons_inv_l in Hpaths as (p & paths' & Hp & Hps & ->).
    constructor; [eauto | by apply IH].
Qed.

(** Whatever list of indices the sample hands over, a record built from the
    rows at these indices lists their first images in the order of that
    list. *)
Lemma round_images_in_order (data : list Llava.Pretrain.t) idxs exs g ex g' :
  traverse (list_getitem data) idxs = Ok exs →
  Llava._build_convo openai_Client create_chat exs g = (Ok ex, g') →
  Forall2 (λ i p, ∃ e, data !! i = Some e ∧ Llava.Pretrain.images e !! 0 = Some p)
    idxs (Llava.Example.images ex).
Proof.
  intros Hexs Hbuild.
  apply build_convo_Ok in Hbuild
    as (captions & paths & prompt & resp & q0 & a & front & _ & Hpaths & _ & _ & _ & ->).
  apply traverse_Ok in Hexs, Hpaths. cbn [Llava.Example.images].
  eapply paths_of_sample.
  - eapply Forall2_impl; [exact Hexs|]. intros i e. apply list_getitem_Ok.
  - eapply Forall2_impl; [exact Hpaths|]. intros e p. apply list_getitem_Ok.
Qed.

(** A round with [1 ≤ max_images ≤ len(data)] does not raise: it yields a
    record or skips.  A record it yields lists between one and [max_images]
    images, the first images of rows of the data at distinct indices. *)
Lemma gen_round_spec data max_images g :
  1 ≤ max_images ≤ length data →
  ∃ r g',
    Llava.gen_round openai_Client create_chat data max_images g = (Ok r, g')
    ∧ ∀ ex, r = Some ex →
        ∃ idxs g2,
          random_sample (seq 0 (length data)) (1 + g 0 `mod` max_images) (advance g)
          = (Ok idxs, g2)
          ∧ NoDup idxs
          ∧ 1 ≤ length idxs ≤ max_images
          ∧ Forall2 (λ i p, ∃ e, data !! i = Some e
                                   ∧ Llava.Pretrain.images e !! 0 = Some p)
              idxs (Llava.Example.images ex).
Proof.
  intros [Hpos Hle]. unfold Llava.gen_round.
  rewrite decide_True by done.
  assert (Hj : g 0 `mod` max_images < max_images) by (apply Nat.mod_upper_bound; lia).
  destruct (random_sample_spec (seq 0 (length data)) (1 + g 0 `mod` max_images) (advance g))
    as (idxs & g2 & Hsample & Hlen & Hsub & _).
  { rewrite length_seq. lia. }
  assert (Hbound : Forall (λ i, is_ok (list_getitem data i) = true) idxs).
  { apply Forall_forall. intros i Hi.
    apply (elem_of_submseteq _ _ _ Hi) in Hsub. apply elem_of_seq in Hsub.
    destruct (lookup_lt_is_Some_2 data i) as [e He]; [lia|].
    unfold list_getitem. by rewrite He. }
  destruct (traverse_total _ _ Hbound) as [exs Hexs].
  destruct (Llava._build_convo openai_Client create_chat exs g2) as [r3 g3] eqn:Hbuild.
  exists (match r3 with Ok ex => Some ex | Raise _ => None end), g3. split.
  { unfold mbind at 1, M_bind. unfold mbind at 1, M_bind, randbelow, mret, M_ret.
    fold (advance g). unfold mbind at 1, M_bind. rewrite Hsample.
    unfold mbind, M_bind, lift. rewrite Hexs. unfold try_except. rewrite Hbuild.
    by destruct r3. }
  intros ex Hex. destruct r3 as [ex'|]; [|done]. injection Hex as ->.
  exists idxs, g2. split; [done|]. split; [|split; [lia|]].
  - apply submseteq_Permutation in Hsub as [rest Hperm].
    pose proof (NoDup_seq 0 (length data)) as Hnd. rewrite Hperm in Hnd.
    by apply NoDup_app in Hnd as [? _].
  - by eapply round_images_in_order.
Qed.

Lemma gen_unfold data max_images n g :
  Llava.gen openai_Client create_chat data max_images (S n) g =
  match Llava.gen_round openai_Client create_chat data max_images g with
  | (Ok r, g1) =>
      match Llava.gen openai_Client create_chat data max_images n g1 with
      | (Ok rest, g2) => (Ok (option_list r ++ rest), g2)
      | (Raise e, g2) => (Raise e, g2)
      end
  | (Raise e, g1) => (Raise e, g1)
  end.
Proof.
  cbn [Llava.gen]. unfold mbind, M_bind.
  destruct (Llava.gen_round _ _ _ _ g) as [[r|e] g1]; [|done].
  by destruct (Llava.gen _ _ _ _ n g1) as [[rest|e] g2].
Qed.

End Rounds.

(** X17. With [1 ≤ max_images ≤ len(data)] the multi-image generator never
    raises, whatever the service does: it returns at most [num_examples]
    records, and every record is the result of one of its rounds.  The
    images of the record are the first images of the rows of the data at the
    indices that [random.sample(idxs, k)] returned in that round, in the
    order in which it returned them, where [k], between one and
    [max_images], is the number drawn at the start of the round; the indices
    are pairwise distinct.  The order does not depend on how the sample is
    drawn: whatever list of indices is handed over, the record built from
    the rows at these indices lists their first images in the order of the
    list. *)
Theorem X17_multi_image_gen_is_safe (openai_Client : result unit)
    (create_chat : string → result (gmap string string))
    (data : list Llava.Pretrain.t) (max_images num_examples : nat) (g : rng) :
  1 ≤ max_images ≤ length data →
  (∃ out g',
    Llava.gen openai_Client create_chat data max_images num_examples g = (Ok out, g')
    ∧ length out ≤ num_examples
    ∧ Forall (λ ex, ∃ gk idxs g2,
        gk ∈ round_states openai_Client create_chat data max_images num_examples g
        ∧ (Llava.gen_round openai_Client create_chat data max_images gk).1 = Ok (Some ex)
        ∧ random_sample (seq 0 (length data)) (1 + gk 0 `mod` max_images) (advance gk)
          = (Ok idxs, g2)
        ∧ NoDup idxs
        ∧ 1 ≤ length idxs ≤ max_images
        ∧ Forall2 (λ i p, ∃ e, data !! i = Some e
                                 ∧ Llava.Pretrain.images e !! 0 = Some p)
            idxs (Llava.Example.images ex)) out)
  ∧ (∀ idxs exs g1 ex g2,
       traverse (list_getitem data) idxs = Ok exs →
       Llava._build_convo openai_Client create_chat exs g1 = (Ok ex, g2) →
       Forall2 (λ i p, ∃ e, data !! i = Some e
                                ∧ Llava.Pretrain.images e !! 0 = Some p)
         idxs (Llava.Example.images ex)).
Proof.
  intros Hmax. split; [|by intros; eapply round_images_in_order].
  revert g. induction num_examples as [|n IH]; intros g.
  - exists [], g. split; [done|]. split; [done|constructor].
  - rewrite gen_unfold. cbn [round_states].
    destruct (gen_round_spec openai_Client create_chat data max_images g Hmax)
      as (r & g1 & Hround & Hr).
    rewrite Hround. cbn [snd].
    destruct (IH g1) as (rest & g2 & -> & Hlen & Hall).
    exists (option_list r ++ rest), g2. split; [done|]. split.
    + rewrite length_app. destruct r; simpl; lia.
    + apply Forall_app. split.
      * destruct r as [ex|]; [|constructor]. repeat constructor.
        destruct (Hr ex eq_refl) as (idxs & g3 & Hsample & Hnd & Hk & Hpaths).
        exists g, idxs, g3. split; [by left|].
        split; [by rewrite Hround|]. done.
      * eapply Forall_impl; [exact Hall|].
        intros ex (gk & idxs & g3 & Hin & Hrest).
        exists gk, idxs, g3. split; [by right|done].
Qed.

Lemma X17_multi_image_gen_is_safe_witness :
  ∃ out g',
    Llava.gen (Ok ()) sample_service sample_pretrain 2 3 sample_tape = (Ok out, g')
    ∧ length out ≤ 3
    ∧ Forall (λ ex, 1 ≤ length (Llava.Example.images ex) ≤ 2) out.
Proof.
  destruct (X17_multi_image_gen_is_safe (Ok ()) sample_service sample_pretrain 2 3
              sample_tape) as [(out & g' & Hrun & Hlen & Hall) _].
  - simpl. lia.
  - exists out, g'. split; [exact Hrun|]. split; [exact Hlen|].
    eapply Forall_impl; [exact Hall|].
    intros ex (gk & idxs & g2 & _ & _ & _ & _ & Hk & Hpaths).
    apply Forall2_length in Hpaths. lia.
Defined.

(** X18. With [max_images] zero, or with an empty dataset and a positive
    [max_images], the multi-image generator raises a [ValueError] in its
    first round, outside the [try]: no record is yielded and the run
    aborts. *)
Theorem X18_multi_image_gen_aborts (openai_Client : result unit)
    (create_chat : string → result (gmap string string))
    (data : list Llava.Pretrain.t) (max_images num_examples : nat) (g : rng) :
  1 ≤ num_examples →
  max_images = 0 ∨ data = [] →
  ∃ msg g',
    Llava.gen openai_Client create_chat data max_images num_examples g
    = (Raise (ValueError msg), g').
Proof.
  intros Hnum Hbad. destruct num_examples as [|n]; [lia|].
  rewrite gen_unfold. unfold Llava.gen_round.
  destruct (decide (1 ≤ max_images)) as [Hpos|Hzero].
  - destruct Hbad as [-> | ->]; [lia|].
    unfold mbind at 1, M_bind. unfold mbind at 1, M_bind, randbelow, mret, M_ret.
    unfold mbind at 1, M_bind.
    rewrite random_sample_too_large by (simpl; lia). eauto.
  - unfold mbind at 1, M_bind, lift. eauto.
Qed.

Lemma X18_multi_image_gen_aborts_witness :
  ∃ msg g',
    Llava.gen (Ok ()) sample_service sample_pretrain 0 5 sample_tape
    = (Raise (ValueError msg), g').
Proof.
  apply (X18_multi_image_gen_aborts (Ok ()) sample_service sample_pretrain 0 5 sample_tape).
  - lia.
  - left. reflexivity.
Defined.

(** X19. When some captioned image handed to [_build_convo] has fewer than
    two messages, or no image path, the synthesis raises before anything is
    drawn and whatever the service would answer. *)
Theorem X19_malformed_example_raises_early (openai_Client : result unit)
    (create_chat : string → result (gmap string string))
    (pretrain_examples : list Llava.Pretrain.t) (g : rng) :
  Exists (λ e, length (Llava.Pretrain.messages e) < 2 ∨ Llava.Pretrain.images e = [])
    pretrain_examples →
  ∃ err,
    Llava._build_convo openai_Client create_chat pretrain_examples g = (Raise err, g).
Proof.
  intros Hex. unfold Llava._build_convo.
  unfold mbind at 1, M_bind, lift. destruct openai_Client as [[]|err]; [|eauto].
  unfold mbind at 1, M_bind.
  destruct (traverse _ pretrain_examples) as [captions|err] eqn:Hcap; [|eauto].
  unfold mbind at 1, M_bind.
  destruct (traverse (λ e, list_getitem (Llava.Pretrain.images e) 0) pretrain_examples)
    as [paths|err] eqn:Hpaths; [|eauto].
  exfalso. apply traverse_Ok in Hcap, Hpaths.
  apply Exists_exists in Hex as (e & He & Hbad).
  apply list_elem_of_lookup in He as [k Hk].
  destruct (Forall2_lookup_l _ _ _ _ _ Hcap Hk) as (cap & _ & Hc).
  destruct (Forall2_lookup_l _ _ _ _ _ Hpaths Hk) as (p & _ & Hp).
  apply list_getitem_Ok in Hp.
  destruct Hbad as [Hshort | Hnone]; [|by rewrite Hnone in Hp].
  revert Hc. unfold mbind, result_bind, list_getitem.
  rewrite (lookup_ge_None_2 (Llava.Pretrain.messages e) 1) by lia. done.
Qed.

Lemma X19_malformed_example_raises_early_witness :
  ∃ err,
    Llava._build_convo (Ok ()) sample_service sample_pretrain_short sample_tape
    = (Raise err, sample_tape).
Proof.
  apply (X19_malformed_example_raises_early (Ok ()) sample_service
           sample_pretrain_short sample_tape).
  apply Exists_cons_tl, Exists_cons_hd. left. simpl. lia.
Defined.

(** X20. When the service never delivers both a question and an answer (it
    raises, or its reply lacks one of the two fields), the multi-image
    generator with [1 ≤ max_images ≤ len(data)] yields no record and does
    not raise: every round is skipped. *)
Theorem X20_failing_service_yields_nothing (openai_Client : result unit)
    (create_chat : string → result (gmap string string))
    (data : list Llava.Pretrain.t) (max_images num_examples : nat) (g : rng) :
  1 ≤ max_images ≤ length data →
  (∀ prompt resp, create_chat prompt = Ok resp →
     resp !! "question" = None ∨ resp !! "answer" = None) →
  ∃ g',
    Llava.gen openai_Client create_chat data max_images num_examples g = (Ok [], g').
Proof.
  intros Hmax Hservice. revert g. induction num_examples as [|n IH]; intros g.
  - by exists g.
  - rewrite gen_unfold.
    destruct (gen_round_spec openai_Client create_chat data max_images g Hmax)
      as (r & g1 & Hround & _).
    rewrite Hround. destruct (IH g1) as (g2 & ->).
    destruct r as [ex|]; [exfalso|by exists g2].
    apply gen_round_Ok in Hround as (idxs & exs & gk & _ & Hbuild & _).
    apply build_convo_Ok in Hbuild
      as (captions & paths & prompt & resp & q0 & a & front & _ & _ & Hresp & Hq & Ha & _).
    destruct (Hservice prompt resp Hresp); congruence.
Qed.

Lemma X20_failing_service_yields_nothing_witness :
  ∃ g',
    Llava.gen (Ok ()) sample_service_down sample_pretrain 2 4 sample_tape = (Ok [], g').
Proof.
  apply (X20_failing_service_yields_nothing (Ok ()) sample_service_down
           sample_pretrain 2 4 sample_tape).
  - simpl. lia.
  - intros prompt resp Hresp. discriminate Hresp.
Defined.

(** ** The prompt sent to the service *)

Section Strip.

Lemma str_rev_app_acc s acc : String.rev_app s acc = String.rev s +:+ acc.
Proof.
  unfold String.rev. revert acc. induction s as [|a s IH]; intros acc; [done|].
  simpl. rewrite (IH (String a acc)), (IH (String a "")).
  by rewrite str_app_assoc.
Qed.

Lemma str_rev_String a s : String.rev (String a s) = String.rev s +:+ String a "".
Proof. unfold String.rev at 1. simpl. apply str_rev_app_acc. Qed.

Lemma str_rev_app_distr a b : String.rev (a +:+ b) = String.rev b +:+ String.rev a.
Proof.
  induction a as [|c a IH].
  - change ("" +:+ b) with b. by rewrite str_app_nil_r.
  - by rewrite app_String, !str_rev_String, IH, str_app_assoc.
Qed.

Lemma str_rev_involutive s : String.rev (String.rev s) = s.
Proof.
  induction s as [|c s IH]; [done|].
  by rewrite str_rev_String, str_rev_app_distr, IH.
Qed.

Lemma lstrip_solid s : starts_solid s = true → lstrip s = s.
Proof. destruct s as [|c s]; [done|]. simpl. by destruct (isspace c). Qed.

Lemma starts_solid_app s x : starts_solid s = true → starts_solid (s +:+ x) = true.
Proof. by destruct s. Qed.

(** [strip] takes the line feed before and the line feed after a text that
    begins and ends with something else than white space, and nothing
    more. *)
Lemma str_strip_between body :
  starts_solid body = true →
  starts_solid (String.rev body) = true →
  str_strip (nl +:+ body +:+ nl) = body.
Proof.
  intros Hhead Htail. unfold str_strip.
  change (lstrip (nl +:+ body +:+ nl)) with (lstrip (body +:+ nl)).
  rewrite (lstrip_solid (body +:+ nl)) by (by apply starts_solid_app).
  rewrite str_rev_app_distr.
  change (lstrip (String.rev nl +:+ String.rev body)) with (lstrip (String.rev body)).
  by rewrite lstrip_solid, str_rev_involutive.
Qed.

Lemma questions_end_solid :
  forallb (λ q, starts_solid (String.rev q)) Llava.QUESTIONS = true.
Proof. vm_compute. reflexivity. Qed.

Lemma PROMPT_format_stripped captions question :
  question ∈ Llava.QUESTIONS →
  str_strip (Llava.PROMPT_format captions question)
  = PROMPT_head +:+ captions +:+ nl +:+ nl +:+ question.
Proof.
  intros Hq.
  assert (Hshape : Llava.PROMPT_format captions question
                   = nl +:+ (PROMPT_head +:+ captions +:+ nl +:+ nl +:+ question) +:+ nl).
  { unfold Llava.PROMPT_format, PROMPT_head. by rewrite !str_app_assoc. }
  rewrite Hshape. apply str_strip_between; [done|].
  rewrite <-!str_app_assoc, str_rev_app_distr. apply starts_solid_app.
  apply list_elem_of_In in Hq.
  by apply (proj1 (forallb_forall _ _) questions_end_solid).
Qed.

End Strip.

(** X21. The system prompt that [_build_convo] sends to the service is the
    template filled with the captions and with one of the twelve
    instructions, less its first and its last line feed: it begins with
    [You are helping] and ends with the instruction.  The captions are the
    contents of the second messages of the examples, and the k-th caption
    line is [Image k+1 - <caption>]. *)
Theorem X21_prompt_sent_to_the_service (openai_Client : result unit)
    (create_chat : string → result (gmap string string))
    (pretrain_examples : list Llava.Pretrain.t) (g : rng)
    (example : Llava.Example.t) (g' : rng) :
  Llava._build_convo openai_Client create_chat pretrain_examples g = (Ok example, g') →
  ∃ captions question resp,
    question ∈ Llava.QUESTIONS
    ∧ Forall2 (λ e cap, ∃ m, Llava.Pretrain.messages e !! 1 = Some m
                             ∧ m !! "content" = Some cap)
        pretrain_examples captions
    ∧ (∀ k cap, captions !! k = Some cap →
         (caption_line_text captions) !! k
         = Some ("Image " +:+ str_of_nat (k + 1) +:+ " - " +:+ cap))
    ∧ create_chat (PROMPT_head +:+ str_join nl (caption_line_text captions)
                     +:+ nl +:+ nl +:+ question) = Ok resp.
Proof.
  unfold Llava._build_convo. intros Hrun.
  apply bind_Ok in Hrun as (_ & g1 & _ & Hrun).
  apply bind_Ok in Hrun as (captions & g2 & [Hcap _]%lift_Ok & Hrun).
  apply bind_Ok in Hrun as (paths & g3 & _ & Hrun).
  apply bind_Ok in Hrun as (question & g4 & Hquestion & Hrun).
  apply bind_Ok in Hrun as (resp & g5 & [Hresp _]%lift_Ok & _).
  assert (Hq : question ∈ Llava.QUESTIONS).
  { destruct (random_choice_spec "" Llava.QUESTIONS g3 ltac:(done)) as [Heq Hin].
    rewrite Heq in Hquestion. by injection Hquestion as <- _. }
  rewrite (PROMPT_format_stripped _ _ Hq) in Hresp.
  exists captions, question, resp. split; [done|]. split; [|split; [|done]].
  - apply traverse_Ok in Hcap. eapply Forall2_impl; [exact Hcap|].
    intros e cap. unfold mbind, result_bind.
    destruct (list_getitem _ 1) as [m|] eqn:Hm; [|done].
    intros Hc. exists m. split; [by apply list_getitem_Ok | by apply getitem_Ok].
  - intros k cap Hk. unfold caption_line_text.
    by rewrite list_lookup_fmap, enumerate_from_lookup, Hk.
Qed.

Lemma X21_prompt_sent_to_the_service_witness :
  ∃ captions question resp,
    question ∈ Llava.QUESTIONS
    ∧ length captions = 2
    ∧ sample_service (PROMPT_head +:+ str_join nl (caption_line_text captions)
                        +:+ nl +:+ nl +:+ question) = Ok resp.
Proof.
  destruct (Llava._build_convo (Ok ()) sample_service sample_pretrain sample_tape)
    as [[example|e] g'] eqn:Hrun; [|vm_compute in Hrun; discriminate Hrun].
  destruct (X21_prompt_sent_to_the_service (Ok ()) sample_service sample_pretrain
              sample_tape example g' Hrun)
    as (captions & question & resp & Hq & Hcaps & _ & Hresp).
  exists captions, question, resp. split; [exact Hq|]. split; [|exact Hresp].
  apply Forall2_length in Hcaps. symmetry. exact Hcaps.
Defined.

Section Delivery.

Variable create_chat : string → result (gmap string string).

(** With a client, well-formed examples and a service that delivers, the
    synthesis returns a record. *)
Lemma build_convo_total exs g :
  Forall well_formed_example exs →
  (∀ prompt, ∃ resp, create_chat prompt = Ok resp
                     ∧ is_Some (resp !! "question") ∧ is_Some (resp !! "answer")) →
  ∃ ex g', Llava._build_convo (Ok ()) create_chat exs g = (Ok ex, g').
Proof.
  intros Hwf Hservice. unfold Llava._build_convo.
  unfold mbind at 1, M_bind, lift.
  destruct (traverse_total
              (λ e, m ← list_getitem (Llava.Pretrain.messages e) 1; getitem m "content") exs)
    as [captions Hcap].
  { eapply Forall_impl; [exact Hwf|]. intros e [(m & cap & Hm & Hc) _].
    unfold mbind, result_bind, list_getitem. rewrite Hm. cbn [from_option].
    unfold getitem. by rewrite Hc. }
  destruct (traverse_total (λ e, list_getitem (Llava.Pretrain.images e) 0) exs)
    as [paths Hpaths].
  { eapply Forall_impl; [exact Hwf|]. intros e [_ [p Hp]].
    unfold list_getitem. by rewrite Hp. }
  unfold mbind at 1, M_bind. rewrite Hcap.
  unfold mbind at 1, M_bind. rewrite Hpaths.
  unfold mbind at 1, M_bind.
  rewrite (proj1 (random_choice_spec "" Llava.QUESTIONS g ltac:(done))).
  unfold mbind at 1, M_bind.
  destruct (Hservice (str_strip (Llava.PROMPT_format
              (str_join nl (Llava.caption_line <$> enumerate_from 0 captions))
              (choice_of "" Llava.QUESTIONS g))))
    as (resp & -> & [q Hq] & [a Ha]).
  unfold mbind at 1, M_bind, getitem. rewrite Hq. cbn [from_option].
  unfold mbind at 1, M_bind. rewrite Ha. cbn [from_option].
  unfold mbind at 1, M_bind.
  rewrite (proj1 (random_choice_spec true [true; false] _ ltac:(done))).
  by eexists _, _.
Qed.

End Delivery.

(** X22. With a client, a dataset of well-formed captioned images (a second
    message with a content, a first image path), [1 ≤ max_images ≤ len(data)]
    and a service that always delivers a question and an answer, the
    multi-image generator yields exactly [num_examples] records. *)
Theorem X22_delivering_service_yields_every_round
    (create_chat : string → result (gmap string string))
    (data : list Llava.Pretrain.t) (max_images num_examples : nat) (g : rng) :
  1 ≤ max_images ≤ length data →
  Forall well_formed_example data →
  (∀ prompt, ∃ resp, create_chat prompt = Ok resp
                     ∧ is_Some (resp !! "question") ∧ is_Some (resp !! "answer")) →
  ∃ out g',
    Llava.gen (Ok ()) create_chat data max_images num_examples g = (Ok out, g')
    ∧ length out = num_examples.
Proof.
  intros [Hpos Hle] Hwf Hservice. revert g.
  induction num_examples as [|n IH]; intros g.
  - by exists [], g.
  - rewrite gen_unfold. unfold Llava.gen_round. rewrite decide_True by done.
    assert (Hj : g 0 `mod` max_images < max_images) by (apply Nat.mod_upper_bound; lia).
    destruct (random_sample_spec (seq 0 (length data)) (1 + g 0 `mod` max_images) (advance g))
      as (idxs & g2 & Hsample & Hlen & Hsub & _).
    { rewrite length_seq. lia. }
    assert (Hexs : ∃ exs, traverse (list_getitem data) idxs = Ok exs
                          ∧ Forall well_formed_example exs).
    { clear Hsample Hlen.
      assert (Hin : Forall (λ i, i < length data) idxs).
      { apply Forall_forall. intros i Hi.
        apply (elem_of_submseteq _ _ _ Hi) in Hsub. apply elem_of_seq in Hsub. lia. }
      clear Hsub. induction Hin as [|i idxs Hi _ [exs [Hexs Hall]]]; [by exists []|].
      destruct (lookup_lt_is_Some_2 data i Hi) as [e He].
      exists (e :: exs). split.
      - cbn [traverse]. unfold mbind, result_bind. unfold list_getitem at 1.
        rewrite He. cbn [from_option]. by rewrite Hexs.
      - constructor; [|done].
        by apply (proj1 (Forall_forall _ _) Hwf e), list_elem_of_lookup_2 with i. }
    destruct Hexs as (exs & Hexs & Hexs_wf).
    destruct (build_convo_total create_chat exs g2 Hexs_wf Hservice) as (ex & g3 & Hbuild).
    destruct (IH g3) as (rest & g4 & Hrest & Hlen_rest).
    exists (ex :: rest), g4. split; [|simpl; by rewrite Hlen_rest].
    unfold mbind at 1, M_bind. unfold mbind at 1, M_bind, randbelow, mret, M_ret.
    fold (advance g). unfold mbind at 1, M_bind. rewrite Hsample.
    unfold mbind, M_bind, lift. rewrite Hexs. unfold try_except. rewrite Hbuild.
    by rewrite Hrest.
Qed.

Lemma X22_delivering_service_yields_every_round_witness :
  ∃ out g',
    Llava.gen (Ok ()) sample_service sample_pretrain 2 3 sample_tape = (Ok out, g')
    ∧ length out = 3.
Proof.
  apply (X22_delivering_service_yields_every_round sample_service sample_pretrain 2 3
           sample_tape).
  - simpl. lia.
  - repeat constructor; try (eexists _, _; split; vm_compute; reflexivity);
      vm_compute; eauto.
  - intros prompt. eexists. split; [reflexivity|]. split; vm_compute; eauto.
Defined.
